(** * ArchiveBox [archivebox.parsers]: the parser dispatcher and source capture

    A shallow embedding of [archivebox/parsers/__init__.py]:
    the [PARSERS] registry, [run_parser_functions], the bulk entry points
    [parse_links] and [parse_links_memory], the capture helpers
    [save_text_as_source] and [save_file_as_source], and the import-time
    self-check of [URL_REGEX] against [_test_url_strs].

    Python effects are written out: a computation takes a state and gives a
    result together with the next state; a result is a returned value, a
    raised exception, or a process exit ([SystemExit]). *)

From Stdlib Require Import ZArith Ascii String List Bool Lia.
From stdpp Require Import base option list strings gmap pretty.

Local Open Scope string_scope.
Local Open Scope list_scope.

(** ** Python results and a small state-and-exception monad *)

(** Exceptions deriving from [Exception]: what [except Exception] catches. *)
Inductive exn : Type :=
  | Exception (msg : string)
  | AssertionError (msg : string)
  | FileNotFoundError (path : string)
  | KeyError (key : string)
  | IndexError (msg : string)
  | ValueError (msg : string).

(** [str(e)] as printed by [print('    ', e)]. *)
Definition exn_str (e : exn) : string :=
  match e with
  | Exception m | AssertionError m | IndexError m | ValueError m => m
  | FileNotFoundError p => "[Errno 2] No such file or directory: '" ++ p ++ "'"
  | KeyError k => "'" ++ k ++ "'"
  end.

(** [SystemExit] derives from [BaseException] only, so it is a result of its
    own: [except Exception] lets it through. *)
Inductive Result (A : Type) : Type :=
  | Return (a : A)
  | Raise (e : exn)
  | SystemExit (code : Z).
Arguments Return {A} a.
Arguments Raise {A} e.
Arguments SystemExit {A} code.

Definition M (S A : Type) : Type := S -> Result A * S.

Definition ret {S A : Type} (a : A) : M S A := fun s => (Return a, s).
Definition raise {S A : Type} (e : exn) : M S A := fun s => (Raise e, s).
Definition bind {S A B : Type} (c : M S A) (k : A -> M S B) : M S B :=
  fun s =>
    match c s with
    | (Return a, s') => k a s'
    | (Raise e, s') => (Raise e, s')
    | (SystemExit n, s') => (SystemExit n, s')
    end.

(** [try: body / except Exception as err: handler]: the state reached when the
    exception was raised is kept, a [SystemExit] is not caught. *)
Definition try_except {S A : Type} (body : M S A) (handler : exn -> M S A) : M S A :=
  fun s =>
    match body s with
    | (Raise e, s') => handler e s'
    | r => r
    end.

Notation "'let!' x ':=' c 'in' k" := (bind c (fun x => k))
  (at level 10, x name, c at level 100, k at level 200).

(** ** Text streams ([IO[str]]: an open file or a [StringIO]) *)

(** A text stream is its buffer and the position of the next read or write;
    every strategy is handed the same stream object, so the position one
    strategy leaves is the position the next one finds. *)
Record IO : Type := mkIO {
  io_name : string;
  io_content : string;
  io_pos : nat;
}.

(** [StringIO()] *)
Definition StringIO : IO := mkIO "" "" 0.

(** [file.seek(n)] *)
Definition seek (n : nat) (f : IO) : IO :=
  mkIO (io_name f) (io_content f) n.

Definition str_take (n : nat) (s : string) : string := String.substring 0 n s.
Definition str_drop (n : nat) (s : string) : string :=
  String.substring n (String.length s - n) s.

(** A position past the end is padded with NUL characters on write. *)
Fixpoint nul_pad (n : nat) : string :=
  match n with
  | O => ""
  | S k => String Ascii.zero (nul_pad k)
  end.

(** [file.write(s)]: overwrite at the position, extend at the end. *)
Definition write (s : string) (f : IO) : IO :=
  let c := io_content f in
  let p := io_pos f in
  mkIO (io_name f)
       (str_take p c ++ nul_pad (p - String.length c) ++ s
          ++ str_drop (p + String.length s) c)
       (p + String.length s).

(** [file.writelines(lines)]: each string written in turn, no separator
    added. *)
Definition writelines (lines : list string) (f : IO) : IO :=
  fold_left (fun f' line => write line f') lines f.

(** [file.name = n] *)
Definition set_name (n : string) (f : IO) : IO :=
  mkIO n (io_content f) (io_pos f).

(** [open(path, 'r')] on a file system that maps paths to their text. *)
Definition open_read (fs : gmap string string) (path : string) : Result IO :=
  match fs !! path with
  | Some text => Return (mkIO path text 0)
  | None => Raise (FileNotFoundError path)
  end.

(** ** The strategy registry and the dispatcher *)

(** A parser function is called as [parser_func(to_parse, root_url=root_url)]
    and its result is forced with [list(...)]: it either yields its links or
    raises an exception (a subclass of [Exception]), and leaves the stream
    wherever its reading stopped. [Link] comes from [archivebox.index.schema];
    the dispatcher only counts links. *)
Definition parser_func (Link : Type) : Type :=
  IO -> option string -> (exn + list Link) * IO.

(** The eleven parser functions the module imports; their modules are not
    part of this file, so they are parameters. *)
Record parser_modules (Link : Type) : Type := {
  parse_pocket_html_export : parser_func Link;
  parse_pocket_api_export : parser_func Link;
  parse_pinboard_rss_export : parser_func Link;
  parse_wallabag_atom_export : parser_func Link;
  parse_shaarli_rss_export : parser_func Link;
  parse_medium_rss_export : parser_func Link;
  parse_netscape_html_export : parser_func Link;
  parse_generic_rss_export : parser_func Link;
  parse_generic_json_export : parser_func Link;
  parse_generic_html_export : parser_func Link;
  parse_generic_txt_export : parser_func Link;
}.
Arguments parse_pocket_html_export {Link} _.
Arguments parse_pocket_api_export {Link} _.
Arguments parse_pinboard_rss_export {Link} _.
Arguments parse_wallabag_atom_export {Link} _.
Arguments parse_shaarli_rss_export {Link} _.
Arguments parse_medium_rss_export {Link} _.
Arguments parse_netscape_html_export {Link} _.
Arguments parse_generic_rss_export {Link} _.
Arguments parse_generic_json_export {Link} _.
Arguments parse_generic_html_export {Link} _.
Arguments parse_generic_txt_export {Link} _.

Section Dispatcher.

Context {Link : Type}.
Variable imports : parser_modules Link.

Definition PARSERS : list (string * parser_func Link) :=
  [ (* Specialized parsers *)
    ("Pocket API", parse_pocket_api_export imports);
    ("Wallabag ATOM", parse_wallabag_atom_export imports);
    ("Pocket HTML", parse_pocket_html_export imports);
    ("Pinboard RSS", parse_pinboard_rss_export imports);
    ("Shaarli RSS", parse_shaarli_rss_export imports);
    ("Medium RSS", parse_medium_rss_export imports);
    (* General parsers *)
    ("Netscape HTML", parse_netscape_html_export imports);
    ("Generic RSS", parse_generic_rss_export imports);
    ("Generic JSON", parse_generic_json_export imports);
    ("Generic HTML", parse_generic_html_export imports);
    (* Fallback parser *)
    ("Plain Text", parse_generic_txt_export imports) ].

(** [list(parser_func(to_parse, root_url=root_url))] *)
Definition call_parser (f : parser_func Link) (root_url : option string)
  : M IO (list Link) :=
  fun to_parse =>
    match f to_parse root_url with
    | (inl err, s) => (Raise err, s)
    | (inr links, s) => (Return links, s)
    end.

(** The pair [(most_links, best_parser_name)] carried around the loop. *)
Definition best : Type := list Link * option string.

(** One turn of the [for] loop: the [try] body and its [except] clause. *)
Definition try_parser (parser_name : string) (f : parser_func Link)
    (root_url : option string) (acc : best) : M IO best :=
  try_except
    (let! parsed_links := call_parser f root_url in
     match parsed_links with
     | [] => raise (Exception "no links found")
     | _ :: _ =>
         if (length (fst acc) <? length parsed_links)%nat
         then ret (parsed_links, Some parser_name)
         else ret acc
     end)
    (fun err => ret acc).

Fixpoint for_parsers (parsers : list (string * parser_func Link))
    (root_url : option string) (acc : best) : M IO best :=
  match parsers with
  | [] => ret acc
  | (parser_name, f) :: rest =>
      let! acc' := try_parser parser_name f root_url acc in
      for_parsers rest root_url acc'
  end.

(** The loop of [run_parser_functions] over an arbitrary registry. The
    [timer] argument only drives the progress display ([timer.end()]) and
    has no part in the returned pair; it is left out. *)
Definition run_parser_functions_over (parsers : list (string * parser_func Link))
    (to_parse : IO) (root_url : option string) : Result best * IO :=
  for_parsers parsers root_url ([], None) to_parse.

Definition run_parser_functions (to_parse : IO) (root_url : option string)
  : Result best * IO :=
  run_parser_functions_over PARSERS to_parse root_url.

(** What each registry entry produced during one run, in registry order,
    the stream being threaded from one strategy to the next. *)
Fixpoint attempts (parsers : list (string * parser_func Link))
    (root_url : option string) (to_parse : IO)
  : list (string * (exn + list Link)) :=
  match parsers with
  | [] => []
  | (parser_name, f) :: rest =>
      let '(out, s) := f to_parse root_url in
      (parser_name, out) :: attempts rest root_url s
  end.

(** Number of records of an attempt: none when it raised. *)
Definition count (out : exn + list Link) : nat :=
  match out with
  | inl _ => 0
  | inr links => length links
  end.

(** [file = StringIO(); file.writelines(urls); file.name = "io_string"] *)
Definition memory_file (urls : list string) : IO :=
  set_name "io_string" (writelines urls StringIO).

(** The tail shared by both entry points:
    [if parser is None: return [], 'Failed to parse'] / [return links, parser] *)
Definition bulk_result (r : Result best * IO) : Result (list Link * string) :=
  match r with
  | (Return (links, parser), _) =>
      match parser with
      | None => Return ([], "Failed to parse")
      | Some name => Return (links, name)
      end
  | (Raise e, _) => Raise e
  | (SystemExit n, _) => SystemExit n
  end.

(** [parse_links_memory(urls, root_url)]. The [enforce_types] decorator
    checks the argument types at run time; here the types of the arguments
    do that. *)
Definition parse_links_memory (urls : list string) (root_url : option string)
  : Result (list Link * string) :=
  let file := memory_file urls in
  bulk_result (run_parser_functions file root_url).

(** [parse_links(source_file, root_url)] on a file system [fs]. *)
Definition parse_links (fs : gmap string string) (source_file : string)
    (root_url : option string) : Result (list Link * string) :=
  match open_read fs source_file with
  | Return file => bulk_result (run_parser_functions file root_url)
  | Raise e => Raise e
  | SystemExit n => SystemExit n
  end.

End Dispatcher.

(** ** Paths ([pathlib]) and [str.format] *)

(** A POSIX path: whether it is anchored at the root, and its components. *)
Record Path : Type := mkPath {
  anchored : bool;
  parts : list string;
}.

(** [s.split(sep)] for a one-character separator. *)
Fixpoint split_on (sep : ascii) (s : string) : list string :=
  match s with
  | EmptyString => [""]
  | String c r =>
      if Ascii.eqb c sep then "" :: split_on sep r
      else match split_on sep r with
           | [] => [String c ""]
           | w :: ws => String c w :: ws
           end
  end.

Definition is_component (p : string) : bool :=
  negb (String.eqb p "") && negb (String.eqb p ".").

(** [Path(s)]: empty and [.] components are dropped. *)
Definition path_of_str (s : string) : Path :=
  mkPath (String.prefix "/" s) (List.filter is_component (split_on "/" s)).

(** [str(p)] *)
Definition path_str (p : Path) : string :=
  match anchored p, parts p with
  | false, [] => "."
  | false, ps => String.concat "/" ps
  | true, ps => "/" ++ String.concat "/" ps
  end.

(** [p / s]: an absolute right operand replaces the left one. *)
Definition path_join (p : Path) (s : string) : Path :=
  let q := path_of_str s in
  if anchored q then q else mkPath (anchored p) (parts p ++ parts q).

Fixpoint list_prefixb (l1 l2 : list string) : bool :=
  match l1, l2 with
  | [], _ => true
  | x :: l1', y :: l2' => String.eqb x y && list_prefixb l1' l2'
  | _ :: _, [] => false
  end.

(** [p] lies in directory [dir] (or is [dir] itself). *)
Definition path_under (dir p : Path) : bool :=
  Bool.eqb (anchored dir) (anchored p) && list_prefixb (parts dir) (parts p).

Fixpoint kw_lookup (kwargs : list (string * string)) (name : string)
  : option string :=
  match kwargs with
  | [] => None
  | (k, v) :: rest => if String.eqb k name then Some v else kw_lookup rest name
  end.

Definition is_digit (c : ascii) : bool :=
  (48 <=? nat_of_ascii c)%nat && (nat_of_ascii c <=? 57)%nat.

Fixpoint all_chars (p : ascii -> bool) (s : string) : bool :=
  match s with
  | EmptyString => true
  | String c r => p c && all_chars p r
  end.

(** The value of the replacement field [{name}] under keyword arguments only:
    an empty or numeric name asks for a positional argument. *)
Definition field_value (kwargs : list (string * string)) (name : string)
  : exn + string :=
  if all_chars is_digit name
  then inl (IndexError "Replacement index out of range for positional args tuple")
  else match kw_lookup kwargs name with
       | Some v => inr v
       | None => inl (KeyError name)
       end.

Definition prepend (c : ascii) (r : exn + string) : exn + string :=
  match r with
  | inl e => inl e
  | inr s => inr (String c s)
  end.

Definition prepend_str (v : string) (r : exn + string) : exn + string :=
  match r with
  | inl e => inl e
  | inr s => inr (v ++ s)%string
  end.

(** [template.format(name=value, ...)] for templates made of literal text, the
    escapes [{{] and [}}], and plain fields [{name}]. [field] is the name
    being read, if a field is open. Conversions, format specs, attributes and
    indices are not used by the templates of this module and are not
    interpreted: such a field is looked up by its whole text. *)
Fixpoint format_go (kwargs : list (string * string)) (field : option string)
    (s : string) : exn + string :=
  match field, s with
  | None, EmptyString => inr ""
  | Some _, EmptyString => inl (ValueError "expected '}' before end of string")
  | Some name, String c r =>
      if Ascii.eqb c "}" then
        match field_value kwargs name with
        | inl e => inl e
        | inr v => prepend_str v (format_go kwargs None r)
        end
      else if Ascii.eqb c "{" then
        inl (ValueError "unexpected '{' in field name")
      else format_go kwargs (Some (name ++ String c "")%string) r
  | None, String c r =>
      if Ascii.eqb c "{" then
        match r with
        | String c' r' =>
            if Ascii.eqb c' "{" then prepend "{" (format_go kwargs None r')
            else format_go kwargs (Some "") r
        | EmptyString => inl (ValueError "Single '{' encountered in format string")
        end
      else if Ascii.eqb c "}" then
        match r with
        | String c' r' =>
            if Ascii.eqb c' "}" then prepend "}" (format_go kwargs None r')
            else inl (ValueError "Single '}' encountered in format string")
        | EmptyString => inl (ValueError "Single '}' encountered in format string")
        end
      else prepend c (format_go kwargs None r)
  end.

Definition py_format (template : string) (kwargs : list (string * string))
  : exn + string :=
  format_go kwargs None template.

(** ** Source capture *)

(** What the capture helpers do to their surroundings, in order. *)
Inductive event : Type :=
  | Print (text : string)
  | Download (url : string) (timeout : Z)
  | OpenRead (path : string)
  | AtomicWrite (path : string) (text : string)
  | LogSourceSaved (source_file : string).

(** The file system, the clock (whole seconds of [datetime.now().timestamp()])
    and the effects performed so far. *)
Record World : Type := mkWorld {
  files : gmap string string;
  now : Z;
  trace : list event;
}.

Definition emit (e : event) : M World unit :=
  fun w => (Return tt, mkWorld (files w) (now w) (trace w ++ [e])).

(** [print(text)] *)
Definition print (text : string) : M World unit := emit (Print text).

(** [raise SystemExit(code)] *)
Definition sys_exit {S A : Type} (code : Z) : M S A :=
  fun s => (SystemExit code, s).

(** A call that returns or raises without touching the state. *)
Definition lift {S A : Type} (r : exn + A) : M S A :=
  match r with
  | inl e => raise e
  | inr a => ret a
  end.

(** [str(datetime.now().timestamp()).split('.', 1)[0]] *)
Definition timestamp : M World string :=
  fun w => (Return (pretty (now w)), w).

(** [with open(path, 'r') as f: f.read()] *)
Definition read_file (path : string) : M World string :=
  let! _ := emit (OpenRead path) in
  fun w =>
    match files w !! path with
    | Some text => (Return text, w)
    | None => (Raise (FileNotFoundError path), w)
    end.

(** Modelled from the spec: [atomic_write] of [archivebox.system] is not under
    src/. The destination holds the complete prior content or the complete new
    content, never a partial write: the write is one step of the file map. *)
Definition atomic_write (path text : string) : M World unit :=
  fun w =>
    (Return tt,
     mkWorld (<[path := text]> (files w)) (now w)
             (trace w ++ [AtomicWrite path text])).

(** [log_source_saved(source_file=...)]: the notification of the saved path. *)
Definition log_source_saved (source_file : string) : M World unit :=
  emit (LogSourceSaved source_file).

(** The line feed of the failure message. *)
Definition LF : string := String (ascii_of_nat 10) EmptyString.

(** [archivebox.config]: the constants this module imports. *)
Record config : Type := {
  ANSI : string -> string;
  OUTPUT_DIR : Path;
  SOURCES_DIR_NAME : string;
  TIMEOUT : Z;
}.

(** [archivebox.util]: the helpers this module imports; [download_url] and
    [htmldecode] may raise. *)
Record util : Type := {
  basename : string -> string;
  htmldecode : string -> exn + string;
  download_url : string -> Z -> exn + string;
}.

Section Capture.

Variable cfg : config.
Variable utl : util.

(** [save_text_as_source(raw_text, filename, out_dir)] *)
Definition save_text_as_source (raw_text filename : string) (out_dir : Path)
  : M World string :=
  let! ts := timestamp in
  let! name := lift (py_format filename [("ts", ts)]) in
  let source_path :=
    path_str (path_join (path_join out_dir (SOURCES_DIR_NAME cfg)) name) in
  let! _ := atomic_write source_path raw_text in
  let! _ := log_source_saved source_path in
  ret source_path.

(** [any(path.startswith(s) for s in ('http://', 'https://', 'ftp://'))] *)
Definition is_remote (path : string) : bool :=
  existsb (fun s => String.prefix s path) ["http://"; "https://"; "ftp://"].

(** [save_file_as_source(path, timeout, filename, out_dir)]. The progress
    timer of the download ([TimedProgress], [timer.end()]) is display only and
    is left out. *)
Definition save_file_as_source (path : string) (timeout : Z)
    (filename : string) (out_dir : Path) : M World string :=
  let! ts := timestamp in
  let! name :=
    lift (py_format filename [("basename", basename utl path); ("ts", ts)]) in
  let source_path :=
    path_str (path_join (path_join (OUTPUT_DIR cfg) (SOURCES_DIR_NAME cfg)) name) in
  let! raw_source_text :=
    if is_remote path then
      (* Source is a URL that needs to be downloaded *)
      let! _ := print ("    > Downloading " ++ path ++ " contents")%string in
      try_except
        (let! _ := emit (Download path timeout) in
         let! raw_source_text := lift (download_url utl path timeout) in
         let! raw_source_text := lift (htmldecode utl raw_source_text) in
         ret raw_source_text)
        (fun e =>
           let! _ := print (ANSI cfg "red" ++ "[!] Failed to download " ++ path
                              ++ ANSI cfg "reset" ++ LF)%string in
           let! _ := print ("    " ++ " " ++ exn_str e)%string in
           sys_exit 1)
    else
      (* Source is a path to a local file on the filesystem *)
      read_file path
  in
  let! _ := atomic_write source_path raw_source_text in
  let! _ := log_source_saved source_path in
  ret source_path.

End Capture.

(** Default arguments of the two helpers. *)
Definition stdin_filename : string := "{ts}-stdin.txt".
Definition basename_filename : string := "{ts}-{basename}.txt".

(** ** The import-time self-check of [URL_REGEX] *)

(** The double quote, for the two table entries that contain one. *)
Definition DQ : string := String (ascii_of_nat 34) EmptyString.

(** [_test_url_strs]: text and the number of URLs it must contain, in the
    order the dictionary lists them. *)
Definition _test_url_strs : list (string * nat) :=
  [ ("example.com", 0);
    ("/example.com", 0);
    ("//example.com", 0);
    (":/example.com", 0);
    ("://example.com", 0);
    ("htt://example8.com", 0);
    ("/htt://example.com", 0);
    ("https://example", 1);
    ("https://localhost/2345", 1);
    ("https://localhost:1234/123", 1);
    ("://", 0);
    ("https://", 0);
    ("http://", 0);
    ("ftp://", 0);
    ("ftp://example.com", 0);
    ("https://example.com", 1);
    ("https://example.com/", 1);
    ("https://a.example.com", 1);
    ("https://a.example.com/", 1);
    ("https://a.example.com/what/is/happening.html", 1);
    ("https://a.example.com/what/??s/happening.html", 1);
    ("https://a.example.com/what/is/happening.html?what=1&2%20b#h??w-about-this=1a", 1);
    ("https://a.example.com/what/is/happ??ning/?what=1&2%20b#how-abo??t-this=1a", 1);
    ("HTtpS://a.example.com/what/is/happening/?what=1&2%20b#how-about-this=1af&2f%20b", 1);
    ("https://example.com/?what=1#how-about-this=1&2%20baf", 1);
    ("https://example.com?what=1#how-about-this=1&2%20baf", 1);
    ("<test>http://example7.com</test>", 1);
    ("[https://example8.com/what/is/this.php?what=1]", 1);
    ("[and http://example9.com?what=1&other=3#and-thing=2]", 1);
    (("<what>https://example10.com#and-thing=2 " ++ DQ ++ "</about>")%string, 1);
    (("abc<this[" ++ DQ ++ "https://example11.com/what/is#and-thing=2?whoami=23&where=1"
        ++ DQ ++ "]that>def")%string, 1);
    ("sdflkf[what](https://example12.com/who/what.php?whoami=1#whatami=2)?am=hi", 1);
    ("<or>http://examplehttp://15.badc</that>", 2);
    ("https://a.example.com/one.html?url=http://example.com/inside/of/another?=http://", 2);
    ("[https://a.example.com/one.html?url=http://example.com/inside/of/another?=](http://a.example.com)", 3) ].

Section SelfCheck.

(** [len(re.findall(URL_REGEX, url_str))]; [URL_REGEX] is imported from
    [archivebox.util]. *)
Variable findall_len : string -> nat.

(** [for url_str, num_urls in _test_url_strs.items(): assert ...] *)
Fixpoint assert_url_strs (table : list (string * nat)) : Result unit :=
  match table with
  | [] => Return tt
  | (url_str, num_urls) :: rest =>
      if (findall_len url_str =? num_urls)%nat
      then assert_url_strs rest
      else Raise (AssertionError
                    (url_str ++ " does not contain " ++ pretty num_urls ++ " urls"))
  end.

(** The module body from line 215 on: importing the module runs the check. *)
Definition module_self_check : Result unit :=
  assert_url_strs _test_url_strs.

End SelfCheck.

Definition lower (c : ascii) : ascii :=
  let n := nat_of_ascii c in
  if (65 <=? n)%nat && (n <=? 90)%nat then ascii_of_nat (n + 32) else c.

(** The text after prefix [p], letter case ignored. *)
Fixpoint strip_prefix_ci (p s : string) : option string :=
  match p, s with
  | EmptyString, _ => Some s
  | String a p', String b s' =>
      if Ascii.eqb (lower a) (lower b) then strip_prefix_ci p' s' else None
  | String _ _, EmptyString => None
  end.

Definition after_scheme (s : string) : option string :=
  match strip_prefix_ci "http://" s with
  | Some r => Some r
  | None => strip_prefix_ci "https://" s
  end.

Definition is_alnum (c : ascii) : bool :=
  let n := nat_of_ascii (lower c) in
  is_digit c || ((97 <=? n)%nat && (n <=? 122)%nat).

(** First character after the scheme: a letter, a digit, or a symbol from
    [$] to [_] or [!]. *)
Definition host_start (c : ascii) : bool :=
  let n := nat_of_ascii c in
  is_alnum c || ((36 <=? n)%nat && (n <=? 95)%nat) || (n =? 33)%nat.

Definition is_space (c : ascii) : bool :=
  let n := nat_of_ascii c in
  ((9 <=? n)%nat && (n <=? 13)%nat) || ((28 <=? n)%nat && (n <=? 32)%nat).

(** A URL stops at a bracket, a parenthesis, an angle bracket, a quote or
    white space. *)
Definition url_char (c : ascii) : bool :=
  let n := nat_of_ascii c in
  negb (is_space c
        || (n =? 93)%nat || (n =? 91)%nat || (n =? 40)%nat || (n =? 41)%nat
        || (n =? 60)%nat || (n =? 62)%nat || (n =? 34)%nat || (n =? 39)%nat).

Definition url_starts_here (s : string) : bool :=
  match after_scheme s with
  | Some (String c (String d _)) => host_start c && url_char d
  | _ => false
  end.

(** Modelled from the spec: [URL_REGEX] of [archivebox.util] is not under src/.
    The spec calls it the generic URL matcher of the plain-text fallback: it
    takes absolute [http] and [https] URLs (scheme and host at least), [ftp]
    is excluded, and a URL embedded in another counts as a URL of its own. The
    model counts the positions of the text at which such a URL starts. *)
Fixpoint url_regex_findall_len (s : string) : nat :=
  match s with
  | EmptyString => 0
  | String _ r => (if url_starts_here s then 1 else 0) + url_regex_findall_len r
  end.

(** ** Vocabulary of the statements *)

Section DispatcherVocabulary.

Context {Link : Type}.

(** The pure content of one loop turn: what the new best pair is, given what
    the strategy produced. *)
Definition keep_best (acc : @best Link) (a : string * (exn + list Link))
  : @best Link :=
  match snd a with
  | inr (x :: l) =>
      if (length (fst acc) <? length (x :: l))%nat
      then (x :: l, Some (fst a))
      else acc
  | _ => acc
  end.

(** The best pair keeps [most_links] empty exactly when no name is set. *)
Definition well_formed (acc : @best Link) : Prop :=
  fst acc = [] <-> snd acc = None.

(** No strategy applies: every attempt of the run raised or came back
    empty. *)
Definition no_strategy_applies (parsers : list (string * parser_func Link))
    (root_url : option string) (to_parse : IO) : Prop :=
  Forall (fun a => count (snd a) = 0) (attempts parsers root_url to_parse).

(** A strategy that raises whatever stream it is handed. *)
Definition always_fails (f : parser_func Link) : Prop :=
  forall s root_url, exists err, fst (f s root_url) = inl err.

(** A strategy that leaves name and buffer of the stream alone: it may only
    move the position. *)
Definition only_moves_position (f : parser_func Link) : Prop :=
  forall s root_url, seek 0 (snd (f s root_url)) = seek 0 s.

(** A strategy that starts with [seek(0)]: the position it is handed has no
    influence on what it does. *)
Definition rewinds (f : parser_func Link) : Prop :=
  forall s root_url, f s root_url = f (seek 0 s) root_url.

End DispatcherVocabulary.

(** A location of the form [scheme://rest]. *)
Definition has_scheme (scheme path : string) : Prop :=
  exists rest, path = (scheme ++ "://" ++ rest)%string.

(** The allow-list of remote schemes. *)
Definition remote_schemes : list string := ["http"; "https"; "ftp"].

Definition remote_location (path : string) : Prop :=
  exists scheme, In scheme remote_schemes /\ has_scheme scheme path.

(** ** Sample strategies, registries and inputs *)

(** A strategy that rewinds, reads the stream to its end and raises. *)
Definition rejecting_parser : parser_func string :=
  fun to_parse _ =>
    let file := seek 0 to_parse in
    (inl (Exception "unknown format"),
     seek (String.length (io_content file)) file).

(** A strategy that rewinds, reads the stream to its end and yields [links]. *)
Definition rewinding_parser (links : list string) : parser_func string :=
  fun to_parse _ =>
    let file := seek 0 to_parse in
    (inr links, seek (String.length (io_content file)) file).

(** A strategy that reads on from the position it finds and yields the text
    left there as one link, or nothing at the end of the stream. *)
Definition positional_parser : parser_func string :=
  fun to_parse _ =>
    let rest := str_drop (io_pos to_parse) (io_content to_parse) in
    (inr (if String.eqb rest "" then [] else [rest]),
     seek (String.length (io_content to_parse)) to_parse).

(** Two strategies tie with two links each, the fallback finds one, the
    others raise. *)
Definition sample_imports : parser_modules string := {|
  parse_pocket_html_export := rejecting_parser;
  parse_pocket_api_export := rejecting_parser;
  parse_pinboard_rss_export := rejecting_parser;
  parse_wallabag_atom_export := rejecting_parser;
  parse_shaarli_rss_export := rejecting_parser;
  parse_medium_rss_export := rejecting_parser;
  parse_netscape_html_export :=
    rewinding_parser ["https://a.example.com"; "https://b.example.com"];
  parse_generic_rss_export := rewinding_parser [];
  parse_generic_json_export := rejecting_parser;
  parse_generic_html_export :=
    rewinding_parser ["https://a.example.com/"; "https://b.example.com/"];
  parse_generic_txt_export := rewinding_parser ["https://a.example.com"];
|}.

(** No strategy recognises anything. *)
Definition rejecting_imports : parser_modules string := {|
  parse_pocket_html_export := rejecting_parser;
  parse_pocket_api_export := rejecting_parser;
  parse_pinboard_rss_export := rejecting_parser;
  parse_wallabag_atom_export := rejecting_parser;
  parse_shaarli_rss_export := rejecting_parser;
  parse_medium_rss_export := rejecting_parser;
  parse_netscape_html_export := rejecting_parser;
  parse_generic_rss_export := rewinding_parser [];
  parse_generic_json_export := rejecting_parser;
  parse_generic_html_export := rejecting_parser;
  parse_generic_txt_export := rewinding_parser [];
|}.

Definition sample_file : IO :=
  mkIO "bookmarks.html" "<a href=https://a.example.com>a</a> https://b.example.com" 0.

Definition sample_fs : gmap string string :=
  {[ "bookmarks.html" := io_content sample_file ]}.

(** A configuration, helpers and a world to run the capture on. *)
Definition sample_cfg : config := {|
  ANSI := fun _ => "";
  OUTPUT_DIR := path_of_str "/data";
  SOURCES_DIR_NAME := "sources";
  TIMEOUT := 60;
|}.

Definition sample_utl : util := {|
  basename := fun url => default "" (last (split_on "/" url));
  htmldecode := fun text => inr text;
  download_url := fun url _ =>
    if String.eqb url "https://example.com/feed.xml"
    then inr "<rss>https://a.example.com</rss>"
    else inl (Exception "connection refused");
|}.

Definition sample_world : World := mkWorld sample_fs 1700000000 [].

(** ** Vocabulary of the further statements *)

Section DispatcherVocabulary2.

Context {Link : Type}.

(** The stream after every strategy of the registry has had its turn. *)
Definition stream_after (parsers : list (string * parser_func Link))
    (root_url : option string) (to_parse : IO) : IO :=
  fold_left (fun s p => snd (snd p s root_url)) parsers to_parse.


End DispatcherVocabulary2.

(** A text without the path separator. *)
Definition no_slash (s : string) : bool :=
  all_chars (fun c => negb (Ascii.eqb c "/")) s.

(** The same world at another second of the clock. *)
Definition at_time (t : Z) (w : World) : World :=
  mkWorld (files w) t (trace w).

(** A matcher that finds no URL anywhere. *)
Definition blind_matcher : string -> nat := fun _ => 0.

(** * Properties of the dispatcher *)

Section DispatcherFacts.

Context {Link : Type}.

Lemma try_parser_keep_best parser_name (f : parser_func Link) root_url acc s :
  try_parser parser_name f root_url acc s
  = (Return (keep_best acc (parser_name, fst (f s root_url))), snd (f s root_url)).
Proof.
  unfold try_parser, try_except, bind, call_parser, keep_best.
  destruct (f s root_url) as [[err | [| x l]] s1]; simpl; try reflexivity.
  destruct (length (fst acc) <? S (length l))%nat; reflexivity.
Qed.

(** The loop never raises: it returns the fold of [keep_best] over the
    attempts of the run. *)
Lemma for_parsers_fold (parsers : list (string * parser_func Link)) root_url :
  forall acc s, exists s',
    for_parsers parsers root_url acc s
    = (Return (fold_left keep_best (attempts parsers root_url s) acc), s').
Proof.
  induction parsers as [| [parser_name f] rest IH]; intros acc s.
  - exists s. reflexivity.
  - cbn [for_parsers attempts]. unfold bind.
    rewrite try_parser_keep_best.
    destruct (f s root_url) as [out s1] eqn:E. cbn [fst snd fold_left].
    destruct (IH (keep_best acc (parser_name, out)) s1) as [s' Hs'].
    exists s'. exact Hs'.
Qed.

Lemma attempts_names (parsers : list (string * parser_func Link)) root_url :
  forall s, map fst (attempts parsers root_url s) = map fst parsers.
Proof.
  induction parsers as [| [parser_name f] rest IH]; intros s; [reflexivity |].
  cbn [attempts]. destruct (f s root_url) as [out s1]. cbn [map fst].
  f_equal. apply IH.
Qed.

Lemma keep_best_cases (acc : @best Link) a :
  (keep_best acc a = acc /\ count (snd a) <= length (fst acc))
  \/ (exists links, snd a = inr links
        /\ keep_best acc a = (links, Some (fst a))
        /\ length (fst acc) < length links).
Proof.
  unfold keep_best. destruct a as [n [err | [| x l]]]; cbn [fst snd count].
  - left. split; [reflexivity | simpl; lia].
  - left. split; [reflexivity | simpl; lia].
  - destruct (Nat.ltb_spec (length (fst acc)) (length (x :: l))) as [Hlt | Hge].
    + right. exists (x :: l). auto.
    + left. split; [reflexivity | exact Hge].
Qed.

(** Either nothing beat the starting pair, or the result is the first attempt
    that reaches the largest count. *)
Lemma fold_keep_best_spec (outs : list (string * (exn + list Link))) :
  forall acc : @best Link,
    (fold_left keep_best outs acc = acc
       /\ forall j e, outs !! j = Some e -> count (snd e) <= length (fst acc))
    \/ (exists i name links,
          outs !! i = Some (name, inr links)
          /\ fold_left keep_best outs acc = (links, Some name)
          /\ length (fst acc) < length links
          /\ (forall j e, j < i -> outs !! j = Some e ->
                count (snd e) < length links)
          /\ (forall j e, outs !! j = Some e ->
                count (snd e) <= length links)).
Proof.
  induction outs as [| a outs IH]; intros acc.
  - left. split; [reflexivity |]. intros j e H. destruct j; discriminate H.
  - cbn [fold_left].
    destruct (keep_best_cases acc a) as [[Hk Ha] | (l & Hout & Hk & Hlt)];
      rewrite Hk.
    + destruct (IH acc) as [[Hres Hall] | (i & name & links & Hi & Hres & Hl & Hbefore & Hall)].
      * left. split; [exact Hres |].
        intros [| j] e H; simpl in H.
        -- injection H as <-. exact Ha.
        -- eapply Hall, H.
      * right. exists (S i), name, links. repeat split; try assumption.
        -- intros [| j] e Hj H; simpl in H.
           ++ injection H as <-. lia.
           ++ apply (Hbefore j); [lia | exact H].
        -- intros [| j] e H; simpl in H.
           ++ injection H as <-. lia.
           ++ eapply Hall, H.
    + assert (Hc : count (snd a) = length l) by (rewrite Hout; reflexivity).
      destruct (IH (l, Some (fst a)))
        as [[Hres Hall] | (i & name & links & Hi & Hres & Hl & Hbefore & Hall)];
        cbn [fst] in *.
      * right. exists 0, (fst a), l. repeat split; try assumption.
        -- simpl. destruct a as [n o]; simpl in *. rewrite Hout. reflexivity.
        -- intros j e Hj. lia.
        -- intros [| j] e H; simpl in H.
           ++ injection H as <-. lia.
           ++ eapply Hall, H.
      * right. exists (S i), name, links. repeat split; try assumption.
        -- lia.
        -- intros [| j] e Hj H; simpl in H.
           ++ injection H as <-. lia.
           ++ apply (Hbefore j); [lia | exact H].
        -- intros [| j] e H; simpl in H.
           ++ injection H as <-. lia.
           ++ eapply Hall, H.
Qed.

Lemma keep_best_well_formed (acc : @best Link) a :
  well_formed acc -> well_formed (keep_best acc a).
Proof.
  unfold keep_best. intros H.
  destruct (snd a) as [err | [| x l]]; try exact H.
  destruct (length (fst acc) <? length (x :: l))%nat; [| exact H].
  split; discriminate.
Qed.

Lemma fold_keep_best_well_formed outs :
  forall acc : @best Link,
    well_formed acc -> well_formed (fold_left keep_best outs acc).
Proof.
  induction outs as [| a outs IH]; intros acc H; [exact H |].
  cbn [fold_left]. apply IH, keep_best_well_formed, H.
Qed.

Lemma fold_keep_best_name outs :
  forall (acc : @best Link) name,
    snd (fold_left keep_best outs acc) = Some name ->
    snd acc = Some name \/ In name (map fst outs).
Proof.
  induction outs as [| a outs IH]; intros acc name H; [left; exact H |].
  cbn [fold_left] in H. apply IH in H as [H | H].
  - destruct (keep_best_cases acc a) as [[Hk _] | (l & _ & Hk & _)];
      rewrite Hk in H.
    + left. exact H.
    + right. left. simpl in H. congruence.
  - right. right. exact H.
Qed.

Lemma run_parser_functions_over_fold (parsers : list (string * parser_func Link))
    to_parse root_url :
  exists s',
    run_parser_functions_over parsers to_parse root_url
    = (Return (fold_left keep_best (attempts parsers root_url to_parse) ([], None)),
       s').
Proof. apply for_parsers_fold. Qed.

Lemma run_over_winner (parsers : list (string * parser_func Link))
    to_parse root_url links name s' :
  run_parser_functions_over parsers to_parse root_url
  = (Return (links, Some name), s') ->
  fold_left keep_best (attempts parsers root_url to_parse) ([], None)
  = (links, Some name).
Proof.
  intros Hrun.
  destruct (run_parser_functions_over_fold parsers to_parse root_url) as [s1 Hfold].
  rewrite Hfold in Hrun. congruence.
Qed.

Lemma run_over_most_links (parsers : list (string * parser_func Link))
    to_parse root_url links name s' :
  run_parser_functions_over parsers to_parse root_url
  = (Return (links, Some name), s') ->
  exists i,
    attempts parsers root_url to_parse !! i = Some (name, inr links)
    /\ map fst parsers !! i = Some name
    /\ (forall j e, j < i ->
          attempts parsers root_url to_parse !! j = Some e ->
          count (snd e) < length links)
    /\ (forall j e, i < j ->
          attempts parsers root_url to_parse !! j = Some e ->
          count (snd e) <= length links).
Proof.
  intros Hrun. apply run_over_winner in Hrun as Hres.
  destruct (fold_keep_best_spec (attempts parsers root_url to_parse) ([], None))
    as [[Hsame _] | (i & n & l & Hi & Hbest & _ & Hbefore & Hall)].
  - rewrite Hsame in Hres. discriminate Hres.
  - rewrite Hbest in Hres. injection Hres as -> ->.
    exists i. split; [exact Hi |]. split; [| split].
    + rewrite <- (attempts_names parsers root_url to_parse).
      rewrite list_lookup_fmap, Hi. reflexivity.
    + exact Hbefore.
    + intros j e _ Hj. eapply Hall, Hj.
Qed.

Lemma run_over_name_registered (parsers : list (string * parser_func Link))
    to_parse root_url links name s' :
  run_parser_functions_over parsers to_parse root_url
  = (Return (links, Some name), s') ->
  In name (map fst parsers).
Proof.
  intros Hrun. apply run_over_winner in Hrun as Hres.
  pose proof (fold_keep_best_name
                (attempts parsers root_url to_parse) ([], None) name) as Hn.
  rewrite Hres in Hn. destruct (Hn eq_refl) as [Habs | Hin]; [discriminate Habs |].
  rewrite attempts_names in Hin. exact Hin.
Qed.

(** C1. The record list [run_parser_functions] returns is the output of the
    registry entry that produced strictly more records than every entry
    before it and at least as many as every entry after it: a later strategy
    with an equal count does not replace it, the comparison being strict. The
    returned name is the name registered at that position. *)
Theorem run_parser_functions_most_links (imports : parser_modules Link)
    to_parse root_url links name s' :
  run_parser_functions imports to_parse root_url = (Return (links, Some name), s') ->
  exists i,
    attempts (PARSERS imports) root_url to_parse !! i = Some (name, inr links)
    /\ map fst (PARSERS imports) !! i = Some name
    /\ (forall j e, j < i ->
          attempts (PARSERS imports) root_url to_parse !! j = Some e ->
          count (snd e) < length links)
    /\ (forall j e, i < j ->
          attempts (PARSERS imports) root_url to_parse !! j = Some e ->
          count (snd e) <= length links).
Proof.
  intros Hrun. apply run_over_most_links with (s' := s'). exact Hrun.
Qed.

(** C2. [run_parser_functions] returns on every input, whatever the strategies
    raise or return, and the returned record list is empty exactly when the
    returned name is [None]. *)
Theorem run_parser_functions_total (imports : parser_modules Link)
    to_parse root_url :
  exists links name s',
    run_parser_functions imports to_parse root_url = (Return (links, name), s')
    /\ (links = [] <-> name = None).
Proof.
  unfold run_parser_functions.
  destruct (run_parser_functions_over_fold (PARSERS imports) to_parse root_url)
    as [s1 Hfold].
  pose proof (fold_keep_best_well_formed
                (attempts (PARSERS imports) root_url to_parse) ([], None)) as Hwf.
  destruct (fold_left keep_best _ _) as [links name].
  exists links, name, s1. split; [exact Hfold |].
  apply Hwf. split; reflexivity.
Qed.

(** C10. A winning name returned by [run_parser_functions] is one of the
    eleven names of [PARSERS], whose last entry is 'Plain Text'. *)
Theorem run_parser_functions_name_registered (imports : parser_modules Link)
    to_parse root_url links name s' :
  run_parser_functions imports to_parse root_url = (Return (links, Some name), s') ->
  In name (map fst (PARSERS imports))
  /\ map fst (PARSERS imports)
     = [ "Pocket API"; "Wallabag ATOM"; "Pocket HTML"; "Pinboard RSS";
         "Shaarli RSS"; "Medium RSS"; "Netscape HTML"; "Generic RSS";
         "Generic JSON"; "Generic HTML"; "Plain Text" ]
  /\ length (PARSERS imports) = 11
  /\ last (map fst (PARSERS imports)) = Some "Plain Text".
Proof.
  intros Hrun. split; [| repeat split].
  eapply run_over_name_registered. exact Hrun.
Qed.

Lemma for_parsers_app (l1 l2 : list (string * parser_func Link)) root_url :
  forall acc s,
    for_parsers (l1 ++ l2) root_url acc s
    = (let! acc' := for_parsers l1 root_url acc in for_parsers l2 root_url acc') s.
Proof.
  induction l1 as [| [n f] l1 IH]; intros acc s.
  - reflexivity.
  - cbn [app for_parsers]. unfold bind.
    rewrite try_parser_keep_best. rewrite IH. reflexivity.
Qed.

(** Strategies that rewind give the same verdict from two streams that differ
    in position only. *)
Lemma for_parsers_rewinds (post : list (string * parser_func Link)) root_url acc s1 s2 :
  Forall (fun p => rewinds (snd p)) post ->
  seek 0 s1 = seek 0 s2 ->
  fst (for_parsers post root_url acc s1) = fst (for_parsers post root_url acc s2).
Proof.
  intros Hpost Hseek. destruct post as [| [n g] rest]; [reflexivity |].
  apply Forall_cons in Hpost as [Hg _]. cbn [snd] in Hg.
  cbn [for_parsers]. unfold bind. rewrite !try_parser_keep_best.
  rewrite (Hg s1 root_url), (Hg s2 root_url), Hseek. reflexivity.
Qed.

(** C3, as amended. A strategy that raises on every input can be removed from
    the registry without changing the returned pair, provided it only moves
    the position of the stream and the strategies registered after it rewind
    the stream before reading; the loop itself never repositions the stream
    between two strategies. *)
Theorem failing_strategy_removable (pre post : list (string * parser_func Link))
    name (f : parser_func Link) :
  always_fails f ->
  only_moves_position f ->
  Forall (fun p => rewinds (snd p)) post ->
  forall to_parse root_url,
    fst (run_parser_functions_over (pre ++ (name, f) :: post) to_parse root_url)
    = fst (run_parser_functions_over (pre ++ post) to_parse root_url).
Proof.
  intros Hfail Hmove Hpost to_parse root_url.
  unfold run_parser_functions_over. rewrite !for_parsers_app. unfold bind.
  destruct (for_parsers_fold pre root_url ([], None) to_parse) as [s1 ->].
  cbn [for_parsers]. unfold bind. rewrite try_parser_keep_best.
  destruct (Hfail s1 root_url) as [err Herr]. rewrite Herr.
  change (keep_best ?a (name, inl err)) with a.
  apply for_parsers_rewinds; [exact Hpost | apply Hmove].
Qed.

Lemma no_strategy_applies_fold (parsers : list (string * parser_func Link))
    root_url to_parse :
  no_strategy_applies parsers root_url to_parse ->
  fold_left keep_best (attempts parsers root_url to_parse) ([], None) = ([], None).
Proof.
  intros Hnone.
  destruct (fold_keep_best_spec (attempts parsers root_url to_parse) ([], None))
    as [[Hsame _] | (i & n & l & Hi & _ & Hlt & _)]; [exact Hsame |].
  unfold no_strategy_applies in Hnone. rewrite Forall_lookup in Hnone.
  specialize (Hnone i _ Hi). cbn in Hnone, Hlt. lia.
Qed.

Lemma some_strategy_applies_fold (parsers : list (string * parser_func Link))
    root_url to_parse :
  ~ no_strategy_applies parsers root_url to_parse ->
  exists links name,
    links <> []
    /\ fold_left keep_best (attempts parsers root_url to_parse) ([], None)
       = (links, Some name).
Proof.
  intros Hsome.
  destruct (fold_keep_best_spec (attempts parsers root_url to_parse) ([], None))
    as [[_ Hall] | (i & n & l & _ & Hbest & Hlt & _)].
  - exfalso. apply Hsome. unfold no_strategy_applies. rewrite Forall_lookup.
    intros j e Hj. specialize (Hall j e Hj). cbn in Hall. lia.
  - exists l, n. split; [| exact Hbest].
    intros ->. cbn in Hlt. lia.
Qed.

Lemma bulk_result_cases (imports : parser_modules Link) to_parse root_url :
  (no_strategy_applies (PARSERS imports) root_url to_parse ->
     bulk_result (run_parser_functions imports to_parse root_url)
     = Return ([], "Failed to parse"))
  /\ (~ no_strategy_applies (PARSERS imports) root_url to_parse ->
       exists links name s',
         links <> []
         /\ run_parser_functions imports to_parse root_url
            = (Return (links, Some name), s')
         /\ bulk_result (run_parser_functions imports to_parse root_url)
            = Return (links, name)).
Proof.
  unfold run_parser_functions.
  destruct (run_parser_functions_over_fold (PARSERS imports) to_parse root_url)
    as [s1 Hfold].
  rewrite Hfold. split.
  - intros Hnone. rewrite (no_strategy_applies_fold _ _ _ Hnone). reflexivity.
  - intros Hsome.
    destruct (some_strategy_applies_fold _ _ _ Hsome) as (links & name & Hne & ->).
    exists links, name, s1. auto.
Qed.

(** C4. On a source that opens, [parse_links], and on any URL list
    [parse_links_memory], return the empty list with the string
    'Failed to parse' when every strategy raised or came back empty, and
    otherwise return the winning records with the winning strategy's name;
    neither raises. *)
Theorem bulk_entry_points_report_failure (imports : parser_modules Link)
    (fs : gmap string string) source_file text urls root_url :
  fs !! source_file = Some text ->
  (no_strategy_applies (PARSERS imports) root_url (mkIO source_file text 0) ->
     parse_links imports fs source_file root_url = Return ([], "Failed to parse"))
  /\ (~ no_strategy_applies (PARSERS imports) root_url (mkIO source_file text 0) ->
       exists links name s',
         links <> []
         /\ run_parser_functions imports (mkIO source_file text 0) root_url
            = (Return (links, Some name), s')
         /\ parse_links imports fs source_file root_url = Return (links, name))
  /\ (no_strategy_applies (PARSERS imports) root_url (memory_file urls) ->
       parse_links_memory imports urls root_url = Return ([], "Failed to parse"))
  /\ (~ no_strategy_applies (PARSERS imports) root_url (memory_file urls) ->
       exists links name s',
         links <> []
         /\ run_parser_functions imports (memory_file urls) root_url
            = (Return (links, Some name), s')
         /\ parse_links_memory imports urls root_url = Return (links, name)).
Proof.
  intros Hopen.
  unfold parse_links, parse_links_memory, open_read. rewrite Hopen.
  destruct (bulk_result_cases imports (mkIO source_file text 0) root_url) as [H1 H2].
  destruct (bulk_result_cases imports (memory_file urls) root_url) as [H3 H4].
  auto.
Qed.

End DispatcherFacts.

Lemma run_parser_functions_most_links_witness :
  exists i,
    attempts (PARSERS sample_imports) None sample_file !! i
    = Some ("Netscape HTML", inr ["https://a.example.com"; "https://b.example.com"])
    /\ map fst (PARSERS sample_imports) !! i = Some "Netscape HTML"
    /\ (forall j e, j < i ->
          attempts (PARSERS sample_imports) None sample_file !! j = Some e ->
          count (snd e) < 2)
    /\ (forall j e, i < j ->
          attempts (PARSERS sample_imports) None sample_file !! j = Some e ->
          count (snd e) <= 2).
Proof.
  apply (run_parser_functions_most_links sample_imports sample_file None
           ["https://a.example.com"; "https://b.example.com"] "Netscape HTML"
           (seek 57 sample_file)).
  vm_compute. reflexivity.
Defined.

Lemma run_parser_functions_name_registered_witness :
  In "Netscape HTML" (map fst (PARSERS sample_imports))
  /\ map fst (PARSERS sample_imports)
     = [ "Pocket API"; "Wallabag ATOM"; "Pocket HTML"; "Pinboard RSS";
         "Shaarli RSS"; "Medium RSS"; "Netscape HTML"; "Generic RSS";
         "Generic JSON"; "Generic HTML"; "Plain Text" ]
  /\ length (PARSERS sample_imports) = 11
  /\ last (map fst (PARSERS sample_imports)) = Some "Plain Text".
Proof.
  apply (run_parser_functions_name_registered sample_imports sample_file None
           ["https://a.example.com"; "https://b.example.com"] "Netscape HTML"
           (seek 57 sample_file)).
  vm_compute. reflexivity.
Defined.

(** C3 as stated fails: a strategy that reads the stream to its end before it
    raises leaves nothing for a strategy that reads on from the position it
    finds. *)
Lemma failing_strategy_observable :
  ~ (forall (Link : Type) (pre post : list (string * parser_func Link))
            (name : string) (f : parser_func Link),
        always_fails f ->
        forall to_parse root_url,
          fst (run_parser_functions_over (pre ++ (name, f) :: post) to_parse root_url)
          = fst (run_parser_functions_over (pre ++ post) to_parse root_url)).
Proof.
  intros H.
  specialize (H string [] [("Plain Text", positional_parser)]
                "Generic HTML" rejecting_parser).
  assert (Hfail : always_fails rejecting_parser).
  { intros s r. eexists. reflexivity. }
  specialize (H Hfail (mkIO "urls.txt" "https://example.com" 0) None).
  vm_compute in H. discriminate H.
Qed.

Example failing_strategy_observable_values :
  fst (run_parser_functions_over
         [("Generic HTML", rejecting_parser); ("Plain Text", positional_parser)]
         (mkIO "urls.txt" "https://example.com" 0) None)
  = Return ([], None)
  /\ fst (run_parser_functions_over
            [("Plain Text", positional_parser)]
            (mkIO "urls.txt" "https://example.com" 0) None)
     = Return (["https://example.com"], Some "Plain Text").
Proof. split; reflexivity. Qed.

Lemma failing_strategy_removable_witness :
  fst (run_parser_functions_over
         ([("Netscape HTML", rewinding_parser ["https://a.example.com"])]
            ++ ("Generic JSON", rejecting_parser)
            :: [("Plain Text", rewinding_parser ["https://a.example.com"; "https://b.example.com"])])
         sample_file None)
  = fst (run_parser_functions_over
           ([("Netscape HTML", rewinding_parser ["https://a.example.com"])]
              ++ [("Plain Text", rewinding_parser ["https://a.example.com"; "https://b.example.com"])])
           sample_file None).
Proof.
  apply (failing_strategy_removable
           [("Netscape HTML", rewinding_parser ["https://a.example.com"])]
           [("Plain Text", rewinding_parser ["https://a.example.com"; "https://b.example.com"])]
           "Generic JSON" rejecting_parser).
  - intros s r. exists (Exception "unknown format"). reflexivity.
  - intros s r. reflexivity.
  - repeat constructor.
Defined.

Lemma bulk_entry_points_report_failure_witness :
  (no_strategy_applies (PARSERS sample_imports) None (mkIO "bookmarks.html" (io_content sample_file) 0) ->
     parse_links sample_imports sample_fs "bookmarks.html" None
     = Return ([], "Failed to parse"))
  /\ (~ no_strategy_applies (PARSERS sample_imports) None (mkIO "bookmarks.html" (io_content sample_file) 0) ->
       exists links name s',
         links <> []
         /\ run_parser_functions sample_imports (mkIO "bookmarks.html" (io_content sample_file) 0) None
            = (Return (links, Some name), s')
         /\ parse_links sample_imports sample_fs "bookmarks.html" None
            = Return (links, name))
  /\ (no_strategy_applies (PARSERS sample_imports) None (memory_file ["https://a.example.com"]) ->
       parse_links_memory sample_imports ["https://a.example.com"] None
       = Return ([], "Failed to parse"))
  /\ (~ no_strategy_applies (PARSERS sample_imports) None (memory_file ["https://a.example.com"]) ->
       exists links name s',
         links <> []
         /\ run_parser_functions sample_imports (memory_file ["https://a.example.com"]) None
            = (Return (links, Some name), s')
         /\ parse_links_memory sample_imports ["https://a.example.com"] None
            = Return (links, name)).
Proof.
  apply (bulk_entry_points_report_failure sample_imports sample_fs
           "bookmarks.html" (io_content sample_file) ["https://a.example.com"] None).
  vm_compute. reflexivity.
Defined.

(** The three outcomes of the entry points on concrete inputs: a winner, no
    winner, and a source that does not open. *)
Example parse_links_outcomes :
  parse_links sample_imports sample_fs "bookmarks.html" None
  = Return (["https://a.example.com"; "https://b.example.com"], "Netscape HTML")
  /\ parse_links rejecting_imports sample_fs "bookmarks.html" None
     = Return ([], "Failed to parse")
  /\ parse_links_memory rejecting_imports ["https://a.example.com"] None
     = Return ([], "Failed to parse")
  /\ parse_links sample_imports sample_fs "missing.html" None
     = Raise (FileNotFoundError "missing.html").
Proof. vm_compute. repeat split; reflexivity. Qed.

(** * Properties of the in-memory adapter *)

Lemma str_length_append (a b : string) :
  String.length (a ++ b) = String.length a + String.length b.
Proof.
  induction a as [| c a IH]; [reflexivity |].
  change (S (String.length (a ++ b)) = S (String.length a + String.length b)).
  now rewrite IH.
Qed.

Lemma str_append_assoc (a b c : string) :
  ((a ++ b) ++ c = a ++ (b ++ c))%string.
Proof.
  induction a as [| x a IH]; [reflexivity |].
  change (String x ((a ++ b) ++ c) = String x (a ++ (b ++ c)))%string.
  now rewrite IH.
Qed.

Lemma str_append_empty (a : string) : (a ++ "")%string = a.
Proof.
  induction a as [| x a IH]; [reflexivity |].
  change (String x (a ++ "") = String x a)%string.
  now rewrite IH.
Qed.

Lemma str_take_all (s : string) : str_take (String.length s) s = s.
Proof.
  unfold str_take. induction s as [| c s IH]; simpl; [reflexivity | now rewrite IH].
Qed.

Lemma substring_none (s : string) : forall n, String.substring n 0 s = "".
Proof.
  induction s as [| c s IH]; intros [| n]; simpl; try reflexivity. apply IH.
Qed.

(** Writing at the end of the buffer appends. *)
Lemma write_at_end (s : string) (f : IO) :
  io_pos f = String.length (io_content f) ->
  write s f
  = mkIO (io_name f) (io_content f ++ s) (String.length (io_content f ++ s)).
Proof.
  intros Hpos. unfold write, str_drop. rewrite Hpos, str_take_all.
  rewrite Nat.sub_diag. simpl nul_pad.
  replace (String.length (io_content f)
           - (String.length (io_content f) + String.length s)) with 0 by lia.
  rewrite substring_none, str_append_empty, str_length_append. reflexivity.
Qed.

Lemma writelines_at_end (lines : list string) :
  forall f,
    io_pos f = String.length (io_content f) ->
    writelines lines f
    = mkIO (io_name f) (io_content f ++ String.concat "" lines)
           (String.length (io_content f ++ String.concat "" lines)).
Proof.
  unfold writelines.
  induction lines as [| line rest IH]; intros f Hpos.
  - simpl. rewrite str_append_empty, <- Hpos. destruct f; reflexivity.
  - cbn [fold_left]. rewrite (write_at_end line f Hpos).
    rewrite IH by reflexivity. cbn [io_name io_content].
    assert (Hc : String.concat "" (line :: rest)
                 = (line ++ String.concat "" rest)%string).
    { destruct rest as [| r rest']; simpl; [now rewrite str_append_empty | reflexivity]. }
    rewrite Hc, str_append_assoc. reflexivity.
Qed.

(** C7, as amended. The stream [parse_links_memory] hands to the strategies
    holds the URL strings written one after the other with nothing added
    between them (it is newline-delimited only if the strings themselves end
    in a line feed), is named io_string, and stands at the end of the
    buffer. *)
Theorem memory_file_concatenates {Link : Type} (imports : parser_modules Link)
    (urls : list string) (root_url : option string) :
  parse_links_memory imports urls root_url
  = bulk_result (run_parser_functions imports (memory_file urls) root_url)
  /\ memory_file urls
     = mkIO "io_string" (String.concat "" urls)
            (String.length (String.concat "" urls)).
Proof.
  split; [reflexivity |].
  unfold memory_file. rewrite writelines_at_end by reflexivity. reflexivity.
Qed.

(** C7 as stated fails: two URLs are not separated by a line feed. *)
Lemma memory_file_not_newline_delimited :
  io_content (memory_file ["https://a.example.com"; "https://b.example.com"])
  = "https://a.example.comhttps://b.example.com"
  /\ io_content (memory_file ["https://a.example.com"; "https://b.example.com"])
     <> String.concat LF ["https://a.example.com"; "https://b.example.com"].
Proof. split; [reflexivity | discriminate]. Qed.

(** * Properties of source capture *)

Lemma prefix_app (p s : string) :
  String.prefix p s = true <-> exists rest, s = (p ++ rest)%string.
Proof.
  revert s. induction p as [| a p IH]; intros s.
  - split; [intros _; exists s; reflexivity | intros _; destruct s; reflexivity].
  - destruct s as [| b s]; cbn [String.prefix].
    + split; [discriminate | intros [rest H]; discriminate H].
    + destruct (ascii_dec a b) as [-> | Hne].
      * rewrite IH. split; intros [rest H]; exists rest.
        -- rewrite H. reflexivity.
        -- change (String b s = String b (p ++ rest)%string) in H. congruence.
      * split; [discriminate |].
        intros [rest H].
        change (String b s = String a (p ++ rest)%string) in H. congruence.
Qed.

(** The test of [save_file_as_source] is the allow-list of schemes. *)
Lemma is_remote_spec (path : string) :
  is_remote path = true <-> remote_location path.
Proof.
  unfold is_remote, remote_location, remote_schemes, has_scheme.
  cbn [existsb]. rewrite !orb_true_iff, !prefix_app. split.
  - intros [[rest H] | [[rest H] | [[rest H] | H]]]; try discriminate H.
    + exists "http". split; [simpl; auto | exists rest; exact H].
    + exists "https". split; [simpl; auto | exists rest; exact H].
    + exists "ftp". split; [simpl; auto | exists rest; exact H].
  - intros (scheme & Hin & rest & H). simpl in Hin.
    destruct Hin as [<- | [<- | [<- | []]]]; [left | right; left | right; right; left];
      exists rest; exact H.
Qed.

Section CaptureFacts.

Variable cfg : config.
Variable utl : util.

(** The run of [save_file_as_source], case by case, once the file name has
    been formatted. *)
Lemma save_file_as_source_run path timeout filename out_dir w name :
  py_format filename [("basename", basename utl path); ("ts", pretty (now w))]
  = inr name ->
  let source_path :=
    path_str (path_join (path_join (OUTPUT_DIR cfg) (SOURCES_DIR_NAME cfg)) name) in
  let downloading := Print ("    > Downloading " ++ path ++ " contents")%string in
  let failed err :=
    [ downloading; Download path timeout;
      Print (ANSI cfg "red" ++ "[!] Failed to download " ++ path
               ++ ANSI cfg "reset" ++ LF)%string;
      Print ("    " ++ " " ++ exn_str err)%string ] in
  save_file_as_source cfg utl path timeout filename out_dir w
  = if is_remote path then
      match download_url utl path timeout with
      | inl err => (SystemExit 1, mkWorld (files w) (now w) (trace w ++ failed err))
      | inr raw =>
          match htmldecode utl raw with
          | inl err =>
              (SystemExit 1, mkWorld (files w) (now w) (trace w ++ failed err))
          | inr text =>
              (Return source_path,
               mkWorld (<[source_path := text]> (files w)) (now w)
                       (trace w ++ [ downloading; Download path timeout;
                                     AtomicWrite source_path text;
                                     LogSourceSaved source_path ]))
          end
      end
    else
      match files w !! path with
      | None =>
          (Raise (FileNotFoundError path),
           mkWorld (files w) (now w) (trace w ++ [OpenRead path]))
      | Some text =>
          (Return source_path,
           mkWorld (<[source_path := text]> (files w)) (now w)
                   (trace w ++ [ OpenRead path; AtomicWrite source_path text;
                                 LogSourceSaved source_path ]))
      end.
Proof.
  intros Hname source_path downloading failed.
  unfold save_file_as_source, bind, timestamp. rewrite Hname. cbn [lift ret].
  destruct (is_remote path).
  - unfold try_except, bind, print, emit.
    destruct (download_url utl path timeout) as [err | raw]; cbn [lift raise ret].
    + unfold sys_exit. cbn [files now trace]. rewrite <- !app_assoc. reflexivity.
    + destruct (htmldecode utl raw) as [err | text]; cbn [lift raise ret].
      * unfold sys_exit. cbn [files now trace]. rewrite <- !app_assoc. reflexivity.
      * unfold atomic_write, log_source_saved, emit. cbn [files now trace].
        rewrite <- !app_assoc. reflexivity.
  - unfold read_file, bind, emit. cbn [files now trace].
    destruct (files w !! path) as [text |].
    + unfold atomic_write, log_source_saved, emit. cbn [files now trace].
      rewrite <- !app_assoc. reflexivity.
    + reflexivity.
Qed.

(** C5. [save_file_as_source] downloads its location exactly when the
    location has one of the schemes http, https, ftp, and opens it as a local
    file exactly when it has none of them. *)
Theorem save_file_as_source_remote_iff_scheme path timeout filename out_dir w name :
  py_format filename [("basename", basename utl path); ("ts", pretty (now w))]
  = inr name ->
  exists evs,
    trace (snd (save_file_as_source cfg utl path timeout filename out_dir w))
    = trace w ++ evs
    /\ (In (Download path timeout) evs <-> remote_location path)
    /\ (In (OpenRead path) evs <-> ~ remote_location path).
Proof.
  intros Hname. rewrite (save_file_as_source_run _ _ _ out_dir _ _ Hname).
  destruct (is_remote path) eqn:Hremote.
  - apply is_remote_spec in Hremote.
    destruct (download_url utl path timeout) as [err | raw];
      [| destruct (htmldecode utl raw) as [err | text]];
      (eexists; split; [reflexivity |]; split;
       [ split; [intros _; exact Hremote | intros _; simpl; auto]
       | split; [simpl; intuition discriminate | intros Hn; contradiction] ]).
  - assert (Hlocal : ~ remote_location path).
    { rewrite <- is_remote_spec, Hremote. discriminate. }
    destruct (files w !! path) as [text |];
      (eexists; split; [reflexivity |]; split;
       [ split; [simpl; intuition discriminate | intros Hr; contradiction]
       | split; [intros _; exact Hlocal | intros _; simpl; auto] ]).
Qed.

(** C6. When the download or the decoding of a remote location raises,
    [save_file_as_source] prints the failure and ends in [SystemExit(1)]: it
    neither returns nor raises an exception, the download was tried once, and
    nothing was written. *)
Theorem save_file_as_source_fetch_failure_exits path timeout filename out_dir w
    name err :
  py_format filename [("basename", basename utl path); ("ts", pretty (now w))]
  = inr name ->
  remote_location path ->
  (download_url utl path timeout = inl err
   \/ exists raw, download_url utl path timeout = inr raw
                  /\ htmldecode utl raw = inl err) ->
  save_file_as_source cfg utl path timeout filename out_dir w
  = (SystemExit 1,
     mkWorld (files w) (now w)
       (trace w ++
          [ Print ("    > Downloading " ++ path ++ " contents")%string;
            Download path timeout;
            Print (ANSI cfg "red" ++ "[!] Failed to download " ++ path
                     ++ ANSI cfg "reset" ++ LF)%string;
            Print ("    " ++ " " ++ exn_str err)%string ])).
Proof.
  intros Hname Hremote Hfail.
  rewrite (save_file_as_source_run _ _ _ out_dir _ _ Hname).
  apply is_remote_spec in Hremote. rewrite Hremote.
  destruct Hfail as [-> | (raw & -> & ->)]; reflexivity.
Qed.

(** The [out_dir] argument of [save_file_as_source] has no effect: the path
    is built from [OUTPUT_DIR]. *)
Theorem save_file_as_source_ignores_out_dir path timeout filename out_dir out_dir' w :
  save_file_as_source cfg utl path timeout filename out_dir w
  = save_file_as_source cfg utl path timeout filename out_dir' w.
Proof. reflexivity. Qed.

End CaptureFacts.

Lemma save_file_as_source_remote_iff_scheme_witness :
  exists evs,
    trace (snd (save_file_as_source sample_cfg sample_utl
                  "https://example.com/feed.xml" 60 basename_filename
                  (path_of_str "/data") sample_world))
    = trace sample_world ++ evs
    /\ (In (Download "https://example.com/feed.xml" 60) evs
        <-> remote_location "https://example.com/feed.xml")
    /\ (In (OpenRead "https://example.com/feed.xml") evs
        <-> ~ remote_location "https://example.com/feed.xml").
Proof.
  apply (save_file_as_source_remote_iff_scheme sample_cfg sample_utl
           "https://example.com/feed.xml" 60 basename_filename
           (path_of_str "/data") sample_world "1700000000-feed.xml.txt").
  vm_compute. reflexivity.
Defined.

Lemma save_file_as_source_fetch_failure_exits_witness :
  save_file_as_source sample_cfg sample_utl "ftp://example.org/export.html" 60
    basename_filename (path_of_str "/data") sample_world
  = (SystemExit 1,
     mkWorld (files sample_world) (now sample_world)
       (trace sample_world ++
          [ Print ("    > Downloading " ++ "ftp://example.org/export.html"
                     ++ " contents")%string;
            Download "ftp://example.org/export.html" 60;
            Print (ANSI sample_cfg "red" ++ "[!] Failed to download "
                     ++ "ftp://example.org/export.html"
                     ++ ANSI sample_cfg "reset" ++ LF)%string;
            Print ("    " ++ " " ++ exn_str (Exception "connection refused"))%string ])).
Proof.
  apply (save_file_as_source_fetch_failure_exits sample_cfg sample_utl
           "ftp://example.org/export.html" 60 basename_filename
           (path_of_str "/data") sample_world "1700000000-export.html.txt"
           (Exception "connection refused")).
  - vm_compute. reflexivity.
  - exists "ftp". split; [simpl; auto | exists "example.org/export.html"; reflexivity].
  - left. reflexivity.
Defined.

(** C8. The returned path is not under the [out_dir] the caller passes: asked
    to save under /mnt/archive,
    [save_file_as_source] writes under /data, the configured [OUTPUT_DIR],
    while [save_text_as_source] honours the same argument. *)
Example save_file_as_source_out_dir_unused :
  fst (save_file_as_source sample_cfg sample_utl "bookmarks.html" 60
         basename_filename (path_of_str "/mnt/archive") sample_world)
  = Return "/data/sources/1700000000-bookmarks.html.txt"
  /\ path_under (path_join (path_of_str "/mnt/archive") "sources")
                (path_of_str "/data/sources/1700000000-bookmarks.html.txt")
     = false
  /\ files (snd (save_file_as_source sample_cfg sample_utl "bookmarks.html" 60
                   basename_filename (path_of_str "/mnt/archive") sample_world))
       !! "/data/sources/1700000000-bookmarks.html.txt"
     = Some (io_content sample_file)
  /\ fst (save_text_as_source sample_cfg "https://a.example.com" stdin_filename
            (path_of_str "/mnt/archive") sample_world)
     = Return "/mnt/archive/sources/1700000000-stdin.txt".
Proof. vm_compute. repeat split; reflexivity. Qed.

(** * Properties of the URL self-check *)

Lemma assert_url_strs_all (findall_len : string -> nat) (table : list (string * nat)) :
  assert_url_strs findall_len table = Return tt ->
  forall url_str num_urls,
    In (url_str, num_urls) table -> findall_len url_str = num_urls.
Proof.
  induction table as [| [s n] rest IH]; intros Hok url_str num_urls Hin.
  - destruct Hin.
  - cbn [assert_url_strs] in Hok.
    destruct (Nat.eqb_spec (findall_len s) n) as [Heq | Hne]; [| discriminate Hok].
    destruct Hin as [Hhere | Hrest].
    + injection Hhere as <- <-. exact Heq.
    + apply IH; assumption.
Qed.

(** The modelled matcher passes the whole table. *)
Lemma url_regex_model_passes :
  module_self_check url_regex_findall_len = Return tt.
Proof. vm_compute. reflexivity. Qed.

(** C9. Once the module has been imported, that is once its self-check of
    [URL_REGEX] has passed, the matcher agrees with every line of the table:
    in particular it finds 1 URL in https://example.com, none in example.com,
    none in ftp://example.com, and 2 in a URL that carries another URL as a
    query-string value. *)
Theorem url_regex_matches_table (findall_len : string -> nat) :
  module_self_check findall_len = Return tt ->
  findall_len "https://example.com" = 1
  /\ findall_len "example.com" = 0
  /\ findall_len "ftp://example.com" = 0
  /\ findall_len
       "https://a.example.com/one.html?url=http://example.com/inside/of/another?=http://"
     = 2
  /\ (forall url_str num_urls,
        In (url_str, num_urls) _test_url_strs -> findall_len url_str = num_urls).
Proof.
  intros Hok. unfold module_self_check in Hok.
  pose proof (assert_url_strs_all findall_len _test_url_strs Hok) as Hall.
  repeat split; try exact Hall;
    apply Hall; unfold _test_url_strs;
    repeat first [left; reflexivity | right].
Qed.

Lemma url_regex_matches_table_witness :
  url_regex_findall_len "https://example.com" = 1
  /\ url_regex_findall_len "example.com" = 0
  /\ url_regex_findall_len "ftp://example.com" = 0
  /\ url_regex_findall_len
       "https://a.example.com/one.html?url=http://example.com/inside/of/another?=http://"
     = 2
  /\ (forall url_str num_urls,
        In (url_str, num_urls) _test_url_strs ->
        url_regex_findall_len url_str = num_urls).
Proof.
  apply (url_regex_matches_table url_regex_findall_len).
  vm_compute. reflexivity.
Defined.

(** * Further properties of the dispatcher *)

Section DispatcherMore.

Context {Link : Type}.

Lemma keep_best_length (acc : @best Link) a :
  length (fst (keep_best acc a)) = Nat.max (length (fst acc)) (count (snd a)).
Proof.
  destruct (keep_best_cases acc a) as [[-> Hle] | (l & Hout & -> & Hlt)].
  - lia.
  - rewrite Hout. cbn [fst count]. lia.
Qed.

Lemma fold_keep_best_length (outs : list (string * (exn + list Link))) :
  forall acc : @best Link,
    length (fst (fold_left keep_best outs acc))
    = Nat.max (length (fst acc)) (max_list_with (fun a => count (snd a)) outs).
Proof.
  induction outs as [| a outs IH]; intros acc; cbn [fold_left max_list_with].
  - lia.
  - rewrite IH, keep_best_length. lia.
Qed.

(** X1. The list [run_parser_functions] returns is as long as the longest
    list any strategy produced during the run, and empty when none produced
    one. *)
Theorem run_parser_functions_count_is_max (imports : parser_modules Link)
    to_parse root_url :
  exists links name s',
    run_parser_functions imports to_parse root_url = (Return (links, name), s')
    /\ length links
       = max_list_with (fun a => count (snd a))
           (attempts (PARSERS imports) root_url to_parse).
Proof.
  unfold run_parser_functions.
  destruct (run_parser_functions_over_fold (PARSERS imports) to_parse root_url)
    as [s1 Hfold].
  pose proof (fold_keep_best_length
                (attempts (PARSERS imports) root_url to_parse) ([], None)) as Hlen.
  destruct (fold_left keep_best _ _) as [links name].
  exists links, name, s1. split; [exact Hfold |].
  cbn [fst length] in Hlen. rewrite Hlen. apply Nat.max_0_l.
Qed.

Lemma run_over_winner_determined (parsers : list (string * parser_func Link))
    to_parse root_url i name links :
  attempts parsers root_url to_parse !! i = Some (name, inr links) ->
  links <> [] ->
  (forall j e, j < i -> attempts parsers root_url to_parse !! j = Some e ->
     count (snd e) < length links) ->
  (forall j e, i < j -> attempts parsers root_url to_parse !! j = Some e ->
     count (snd e) <= length links) ->
  fst (run_parser_functions_over parsers to_parse root_url)
  = Return (links, Some name).
Proof.
  intros Hi Hne Hbefore Hafter.
  destruct (run_parser_functions_over_fold parsers to_parse root_url) as [s1 ->].
  cbn [fst]. f_equal.
  assert (Hpos : 0 < length links) by (destruct links; [congruence | simpl; lia]).
  destruct (fold_keep_best_spec (attempts parsers root_url to_parse) ([], None))
    as [[_ Hall] | (i' & n' & l' & Hi' & -> & _ & Hbefore' & Hall')].
  - specialize (Hall i _ Hi). cbn in Hall. lia.
  - destruct (Nat.lt_trichotomy i' i) as [Hlt | [-> | Hgt]].
    + specialize (Hbefore i' _ Hlt Hi'). specialize (Hall' i _ Hi).
      cbn in Hbefore, Hall'. lia.
    + rewrite Hi in Hi'. injection Hi' as -> ->. reflexivity.
    + specialize (Hbefore' i _ Hgt Hi). specialize (Hafter i' _ Hgt Hi').
      cbn in Hbefore', Hafter. lia.
Qed.

(** X2. The winner can be told from the attempts: a strategy that produced a
    non-empty list, longer than every list before it and no shorter than any
    after it, is the one [run_parser_functions] returns. *)
Theorem run_parser_functions_winner_determined (imports : parser_modules Link)
    to_parse root_url i name links :
  attempts (PARSERS imports) root_url to_parse !! i = Some (name, inr links) ->
  links <> [] ->
  (forall j e, j < i ->
     attempts (PARSERS imports) root_url to_parse !! j = Some e ->
     count (snd e) < length links) ->
  (forall j e, i < j ->
     attempts (PARSERS imports) root_url to_parse !! j = Some e ->
     count (snd e) <= length links) ->
  fst (run_parser_functions imports to_parse root_url)
  = Return (links, Some name).
Proof. apply run_over_winner_determined. Qed.

Lemma keep_best_no_links (acc : @best Link) name out :
  count out = 0 -> keep_best acc (name, out) = acc.
Proof.
  unfold keep_best. destruct out as [err | [| x l]]; cbn [snd count]; try reflexivity.
  discriminate.
Qed.

(** X3. A strategy that returns an empty list counts exactly like one that
    raises: exchanging two strategies that never produce a link and move the
    stream alike changes neither the returned pair nor the stream. *)
Theorem empty_result_counts_as_failure (pre post : list (string * parser_func Link))
    name (f g : parser_func Link) :
  (forall s root_url, count (fst (f s root_url)) = 0) ->
  (forall s root_url, count (fst (g s root_url)) = 0) ->
  (forall s root_url, snd (f s root_url) = snd (g s root_url)) ->
  forall to_parse root_url,
    run_parser_functions_over (pre ++ (name, f) :: post) to_parse root_url
    = run_parser_functions_over (pre ++ (name, g) :: post) to_parse root_url.
Proof.
  intros Hf Hg Hsame to_parse root_url.
  unfold run_parser_functions_over. rewrite !for_parsers_app. unfold bind.
  destruct (for_parsers_fold pre root_url ([], None) to_parse) as [s1 ->].
  cbn [for_parsers]. unfold bind. rewrite !try_parser_keep_best.
  rewrite !keep_best_no_links by auto. rewrite Hsame. reflexivity.
Qed.

(** X4. Registering one more strategy at the end of the registry either
    leaves the result as it was, or replaces it by the new strategy's list,
    which is then strictly longer. *)
Theorem registry_append_keeps_or_improves (parsers : list (string * parser_func Link))
    name (f : parser_func Link) to_parse root_url :
  exists links winner s1,
    run_parser_functions_over parsers to_parse root_url
    = (Return (links, winner), s1)
    /\ snd (run_parser_functions_over (parsers ++ [(name, f)]) to_parse root_url)
       = snd (f s1 root_url)
    /\ (fst (run_parser_functions_over (parsers ++ [(name, f)]) to_parse root_url)
          = Return (links, winner)
        \/ exists links',
             fst (f s1 root_url) = inr links'
             /\ length links < length links'
             /\ fst (run_parser_functions_over (parsers ++ [(name, f)])
                       to_parse root_url)
                = Return (links', Some name)).
Proof.
  unfold run_parser_functions_over. rewrite for_parsers_app. unfold bind.
  destruct (for_parsers_fold parsers root_url ([], None) to_parse) as [s1 ->].
  destruct (fold_left keep_best _ _) as [links winner].
  exists links, winner, s1. split; [reflexivity |].
  cbn [for_parsers]. unfold bind. rewrite try_parser_keep_best. cbn [ret fst snd].
  split; [reflexivity |].
  destruct (keep_best_cases (links, winner) (name, fst (f s1 root_url)))
    as [[-> _] | (l & Hout & -> & Hlt)].
  - left. reflexivity.
  - right. exists l. cbn [fst snd] in *. auto.
Qed.

Lemma for_parsers_stream (parsers : list (string * parser_func Link)) root_url :
  forall acc s,
    snd (for_parsers parsers root_url acc s) = stream_after parsers root_url s.
Proof.
  induction parsers as [| [n f] rest IH]; intros acc s; [reflexivity |].
  cbn [for_parsers]. unfold bind. rewrite try_parser_keep_best.
  rewrite IH. reflexivity.
Qed.

(** X5. [run_parser_functions] has no early exit and no rollback: every
    registered strategy is called once, in order, on the stream as the one
    before left it, whether earlier strategies raised, came back empty or
    won. *)
Theorem run_parser_functions_runs_every_strategy (imports : parser_modules Link)
    to_parse root_url :
  snd (run_parser_functions imports to_parse root_url)
  = stream_after (PARSERS imports) root_url to_parse
  /\ length (attempts (PARSERS imports) root_url to_parse) = 11.
Proof.
  split.
  - apply for_parsers_stream.
  - rewrite <- (length_map fst), attempts_names. reflexivity.
Qed.




Lemma bulk_result_returns (imports : parser_modules Link) to_parse root_url :
  exists links name,
    bulk_result (run_parser_functions imports to_parse root_url)
    = Return (links, name)
    /\ (links = [] <-> name = "Failed to parse")
    /\ (name = "Failed to parse" \/ In name (map fst (PARSERS imports))).
Proof.
  assert (exists links winner s',
             run_parser_functions imports to_parse root_url
             = (Return (links, winner), s')
             /\ (links = [] <-> winner = None))
    as (links & winner & s' & Hrun & Hwf).
  { unfold run_parser_functions.
    destruct (run_parser_functions_over_fold (PARSERS imports) to_parse root_url)
      as [s1 Hfold].
    pose proof (fold_keep_best_well_formed
                  (attempts (PARSERS imports) root_url to_parse) ([], None)) as H.
    destruct (fold_left keep_best _ _) as [links winner].
    exists links, winner, s1. split; [exact Hfold |].
    apply H. split; reflexivity. }
  rewrite Hrun. destruct winner as [name |]; cbn [bulk_result].
  - exists links, name. split; [reflexivity |].
    pose proof (run_over_name_registered _ _ _ _ _ _ Hrun) as Hin.
    split; [| right; exact Hin].
    split.
    + intros Hnil. apply Hwf in Hnil. discriminate Hnil.
    + intros ->. exfalso. cbn in Hin. intuition discriminate.
  - exists [], "Failed to parse". split; [reflexivity |].
    split; [tauto | left; reflexivity].
Qed.

End DispatcherMore.

(** X7. [parse_links_memory] always returns, and the string 'Failed to parse'
    is returned exactly with the empty list: it never stands beside records,
    and no registered strategy is called so. *)
Theorem parse_links_memory_sentinel {Link : Type} (imports : parser_modules Link)
    urls root_url :
  exists links name,
    parse_links_memory imports urls root_url = Return (links, name)
    /\ (links = [] <-> name = "Failed to parse")
    /\ (name = "Failed to parse" \/ In name (map fst (PARSERS imports))).
Proof. apply bulk_result_returns. Qed.

(** X8. [parse_links] raises exactly when the source file cannot be opened,
    with the error of [open]; a run that opened the file returns, and nothing
    ends the process. *)
Theorem parse_links_raises_iff_missing {Link : Type} (imports : parser_modules Link)
    (fs : gmap string string) source_file root_url :
  (fs !! source_file = None
   <-> parse_links imports fs source_file root_url
       = Raise (FileNotFoundError source_file))
  /\ (forall e, parse_links imports fs source_file root_url = Raise e ->
        fs !! source_file = None)
  /\ (forall code, parse_links imports fs source_file root_url <> SystemExit code).
Proof.
  unfold parse_links, open_read.
  destruct (fs !! source_file) as [text |] eqn:Hopen.
  - destruct (bulk_result_returns imports (mkIO source_file text 0) root_url)
      as (links & name & -> & _).
    repeat split; intros; discriminate.
  - repeat split; intros; discriminate.
Qed.

Lemma run_parser_functions_winner_determined_witness :
  fst (run_parser_functions sample_imports sample_file None)
  = Return (["https://a.example.com"; "https://b.example.com"], Some "Netscape HTML").
Proof.
  apply (run_parser_functions_winner_determined sample_imports sample_file None 6).
  - reflexivity.
  - discriminate.
  - intros j e Hj H.
    do 6 (destruct j as [| j]; [injection H as <-; simpl; lia |]). lia.
  - intros j e Hj H.
    do 7 (destruct j as [| j]; [lia |]).
    do 4 (destruct j as [| j]; [injection H as <-; simpl; lia |]).
    discriminate H.
Defined.

Lemma empty_result_counts_as_failure_witness :
  run_parser_functions_over
    ([("Netscape HTML", rewinding_parser ["https://a.example.com"])]
       ++ ("Generic RSS", rejecting_parser) :: [("Plain Text", positional_parser)])
    sample_file None
  = run_parser_functions_over
      ([("Netscape HTML", rewinding_parser ["https://a.example.com"])]
         ++ ("Generic RSS", rewinding_parser []) :: [("Plain Text", positional_parser)])
      sample_file None.
Proof.
  apply (empty_result_counts_as_failure
           [("Netscape HTML", rewinding_parser ["https://a.example.com"])]
           [("Plain Text", positional_parser)]
           "Generic RSS" rejecting_parser (rewinding_parser [])).
  - intros s r. reflexivity.
  - intros s r. reflexivity.
  - intros s r. reflexivity.
Defined.


(** * Further properties of source capture *)

Lemma format_stdin_filename (ts : string) :
  py_format stdin_filename [("ts", ts)] = inr (ts ++ "-stdin.txt")%string.
Proof. reflexivity. Qed.

Lemma format_basename_filename (base ts : string) :
  py_format basename_filename [("basename", base); ("ts", ts)]
  = inr (ts ++ "-" ++ base ++ ".txt")%string.
Proof. reflexivity. Qed.



Section CaptureMore.

Variable cfg : config.
Variable utl : util.

(** The run of [save_text_as_source], by the outcome of the formatting. *)
Lemma save_text_as_source_run raw_text filename out_dir w :
  save_text_as_source cfg raw_text filename out_dir w
  = match py_format filename [("ts", pretty (now w))] with
    | inl e => (Raise e, w)
    | inr name =>
        let source_path :=
          path_str (path_join (path_join out_dir (SOURCES_DIR_NAME cfg)) name) in
        (Return source_path,
         mkWorld (<[source_path := raw_text]> (files w)) (now w)
                 (trace w ++ [ AtomicWrite source_path raw_text;
                               LogSourceSaved source_path ]))
    end.
Proof.
  unfold save_text_as_source, bind, timestamp.
  destruct (py_format filename _) as [e | name]; cbn [lift raise ret].
  - reflexivity.
  - unfold atomic_write, log_source_saved, emit. cbn [files now trace].
    rewrite <- !app_assoc. reflexivity.
Qed.

(** X9. When [save_text_as_source] returns a path, the file at that path
    holds the text verbatim, every other file is as before, and the write is
    followed by one notification of the saved path. *)
Theorem save_text_as_source_writes_text raw_text filename out_dir w source_path w' :
  save_text_as_source cfg raw_text filename out_dir w = (Return source_path, w') ->
  files w' !! source_path = Some raw_text
  /\ (forall p, p <> source_path -> files w' !! p = files w !! p)
  /\ trace w' = trace w ++ [ AtomicWrite source_path raw_text;
                             LogSourceSaved source_path ].
Proof.
  rewrite save_text_as_source_run.
  destruct (py_format filename _) as [e | name]; [discriminate |].
  cbn zeta. intros H. injection H as <- <-. cbn [files trace].
  split; [apply lookup_insert_eq |].
  split; [| reflexivity].
  intros p Hp. apply lookup_insert_ne. congruence.
Qed.

Lemma save_file_as_source_bad_template_aux path timeout filename out_dir w e :
  py_format filename [("basename", basename utl path); ("ts", pretty (now w))]
  = inl e ->
  save_file_as_source cfg utl path timeout filename out_dir w = (Raise e, w).
Proof.
  intros Hfmt. unfold save_file_as_source, bind, timestamp. rewrite Hfmt.
  reflexivity.
Qed.




(** X15. A remote source is saved decoded: when the download and the decoding
    succeed, the file in the sources directory holds [htmldecode] of what
    [download_url] returned for the location and the timeout, and the location
    was never opened as a local file. *)
Theorem save_file_as_source_saves_decoded path timeout filename out_dir w name
    raw text :
  py_format filename [("basename", basename utl path); ("ts", pretty (now w))]
  = inr name ->
  remote_location path ->
  download_url utl path timeout = inr raw ->
  htmldecode utl raw = inr text ->
  exists source_path w',
    save_file_as_source cfg utl path timeout filename out_dir w
    = (Return source_path, w')
    /\ files w' !! source_path = Some text
    /\ trace w' = trace w ++
         [ Print ("    > Downloading " ++ path ++ " contents")%string;
           Download path timeout;
           AtomicWrite source_path text;
           LogSourceSaved source_path ].
Proof.
  intros Hfmt Hremote Hdl Hdec.
  rewrite (save_file_as_source_run cfg utl _ _ _ out_dir _ _ Hfmt).
  apply is_remote_spec in Hremote. rewrite Hremote, Hdl, Hdec.
  eexists _, _. split; [reflexivity |]. cbn [files trace].
  split; [apply lookup_insert_eq | reflexivity].
Qed.



(** X12. [save_file_as_source] writes at most one file: a run that returns a
    path has changed the file at that path and no other, and a run that
    raises or exits has changed no file at all. *)
Theorem save_file_as_source_writes_one_file path timeout filename out_dir w :
  match save_file_as_source cfg utl path timeout filename out_dir w with
  | (Return source_path, w') =>
      exists text, files w' = <[source_path := text]> (files w)
  | (_, w') => files w' = files w
  end.
Proof.
  destruct (py_format filename
              [("basename", basename utl path); ("ts", pretty (now w))])
    as [e | name] eqn:Hfmt.
  - rewrite (save_file_as_source_bad_template_aux _ _ _ _ _ _ Hfmt). reflexivity.
  - rewrite (save_file_as_source_run cfg utl _ _ _ out_dir _ _ Hfmt).
    destruct (is_remote path).
    + destruct (download_url utl path timeout) as [err | raw]; [reflexivity |].
      destruct (htmldecode utl raw) as [err | text]; [reflexivity |].
      exists text. reflexivity.
    + destruct (files w !! path) as [text |]; [| reflexivity].
      exists text. reflexivity.
Qed.


(** X18. Two captures within the same second collide: saving a second text
    with the same template while the clock shows the same second returns the
    same path, and the file then holds the second text only. *)
Theorem save_text_as_source_same_second raw1 raw2 filename out_dir w source_path w1 :
  save_text_as_source cfg raw1 filename out_dir w = (Return source_path, w1) ->
  exists w2,
    save_text_as_source cfg raw2 filename out_dir w1 = (Return source_path, w2)
    /\ files w2 !! source_path = Some raw2
    /\ files w2 = <[source_path := raw2]> (files w).
Proof.
  rewrite !save_text_as_source_run.
  destruct (py_format filename [("ts", pretty (now w))]) as [e | name] eqn:Hfmt;
    [discriminate |].
  cbn zeta. intros H. injection H as <- <-. cbn [now]. rewrite Hfmt.
  eexists. split; [reflexivity |]. cbn [files].
  split; [apply lookup_insert_eq | apply insert_insert_eq].
Qed.

End CaptureMore.

Lemma all_chars_app (p : ascii -> bool) (a b : string) :
  all_chars p (a ++ b) = all_chars p a && all_chars p b.
Proof.
  induction a as [| c a IH]; [reflexivity |].
  change (all_chars p (String c (a ++ b)) = all_chars p (String c a) && all_chars p b).
  cbn [all_chars]. rewrite IH. apply andb_assoc.
Qed.

Lemma pretty_N_char_no_slash (x : N) :
  negb (Ascii.eqb (pretty_N_char x) "/") = true.
Proof. unfold pretty_N_char. repeat case_match; reflexivity. Qed.

Lemma pretty_N_go_no_slash (x : N) :
  forall s, no_slash s = true -> no_slash (pretty_N_go x s) = true.
Proof.
  induction (N.lt_wf_0 x) as [x _ IH]; intros s Hs.
  destruct (N.eq_dec x 0%N) as [-> | Hx].
  - rewrite pretty_N_go_0. exact Hs.
  - rewrite pretty_N_go_step by lia. apply IH.
    + apply N.div_lt; lia.
    + unfold no_slash. cbn [all_chars]. rewrite pretty_N_char_no_slash. exact Hs.
Qed.

Lemma pretty_Z_no_slash (z : Z) : no_slash (pretty z) = true.
Proof.
  assert (HN : forall n : N, no_slash (pretty n) = true).
  { intros n. unfold pretty, pretty_N. case_decide; [reflexivity |].
    apply pretty_N_go_no_slash. reflexivity. }
  destruct z as [| q | q]; [reflexivity | apply HN |].
  unfold pretty, pretty_Z, no_slash. rewrite all_chars_app.
  apply andb_true_intro. split; [reflexivity | apply HN].
Qed.

Lemma split_on_no_slash (s : string) :
  no_slash s = true -> split_on "/" s = [s].
Proof.
  unfold no_slash. induction s as [| c s IH]; [reflexivity |].
  cbn [all_chars split_on]. intros H. apply andb_prop in H as [Hc Hs].
  apply negb_true_iff in Hc. rewrite Hc, (IH Hs). reflexivity.
Qed.

Lemma no_slash_relative (s : string) :
  no_slash s = true -> String.prefix "/" s = false.
Proof.
  unfold no_slash. destruct s as [| c s]; [reflexivity |].
  cbn [all_chars String.prefix]. intros H. apply andb_prop in H as [Hc _].
  destruct (ascii_dec "/" c) as [<- | _]; [discriminate Hc | reflexivity].
Qed.

Lemma str_append_inj_r (c a b : string) :
  (a ++ c = b ++ c)%string -> a = b.
Proof.
  revert b. induction a as [| x a IH]; intros [| y b] H.
  - reflexivity.
  - exfalso. apply (f_equal String.length) in H.
    change (String.length c = S (String.length (b ++ c))) in H.
    rewrite str_length_append in H. lia.
  - exfalso. apply (f_equal String.length) in H.
    change (S (String.length (a ++ c)) = String.length c) in H.
    rewrite str_length_append in H. lia.
  - change (String x (a ++ c) = String y (b ++ c))%string in H.
    injection H as -> H. f_equal. apply IH, H.
Qed.

(** The file name of the default template is one path component. *)
Lemma stdin_name_component (z : Z) :
  path_of_str (pretty z ++ "-stdin.txt")
  = mkPath false [(pretty z ++ "-stdin.txt")%string].
Proof.
  assert (Hns : no_slash (pretty z ++ "-stdin.txt") = true).
  { unfold no_slash. rewrite all_chars_app. apply andb_true_intro.
    split; [apply pretty_Z_no_slash | reflexivity]. }
  unfold path_of_str. rewrite (no_slash_relative _ Hns), (split_on_no_slash _ Hns).
  cbn [List.filter]. unfold is_component.
  assert (Hlen : 10 <= String.length (pretty z ++ "-stdin.txt")).
  { rewrite str_length_append. cbn [String.length]. lia. }
  destruct (String.eqb_spec (pretty z ++ "-stdin.txt") "") as [E | _].
  { rewrite E in Hlen. cbn in Hlen. lia. }
  destruct (String.eqb_spec (pretty z ++ "-stdin.txt") ".") as [E | _].
  { rewrite E in Hlen. cbn in Hlen. lia. }
  reflexivity.
Qed.

Lemma concat_cons_more (sep x y : string) (l : list string) :
  String.concat sep (x :: y :: l) = (x ++ sep ++ String.concat sep (y :: l))%string.
Proof. reflexivity. Qed.

Lemma concat_last_inj (ps : list string) (n1 n2 : string) :
  String.concat "/" (ps ++ [n1]) = String.concat "/" (ps ++ [n2]) -> n1 = n2.
Proof.
  induction ps as [| p ps IH]; [intros H; exact H |].
  destruct ps as [| q ps]; cbn [app] in *; rewrite !concat_cons_more; intros H.
  - apply (inj (String.append p)), (inj (String.append "/")) in H. exact H.
  - apply (inj (String.append p)), (inj (String.append "/")) in H.
    apply IH. exact H.
Qed.

Lemma path_str_last_inj (a : bool) (ps : list string) (n1 n2 : string) :
  path_str (mkPath a (ps ++ [n1])) = path_str (mkPath a (ps ++ [n2])) -> n1 = n2.
Proof.
  unfold path_str. cbn [anchored parts]. destruct a.
  - intros H. apply (inj (String.append "/")) in H.
    apply (concat_last_inj ps), H.
  - destruct ps as [| p ps]; cbn [app]; [intros H; exact H |].
    intros H. apply (concat_last_inj (p :: ps)), H.
Qed.

(** X19. Captures taken at different seconds never collide: with the default
    template, a second [save_text_as_source] at another second of the clock
    returns another path, and afterwards both files hold their own text. *)
Theorem save_text_as_source_distinct_seconds (cfg : config) raw1 raw2 out_dir w t2 :
  t2 <> now w ->
  exists sp1 w1 sp2 w2,
    save_text_as_source cfg raw1 stdin_filename out_dir w = (Return sp1, w1)
    /\ save_text_as_source cfg raw2 stdin_filename out_dir (at_time t2 w1)
       = (Return sp2, w2)
    /\ sp1 <> sp2
    /\ files w2 !! sp1 = Some raw1
    /\ files w2 !! sp2 = Some raw2.
Proof.
  intros Ht. rewrite !save_text_as_source_run, !format_stdin_filename.
  cbn zeta. eexists _, _. 
  rewrite save_text_as_source_run. cbn [at_time now files trace].
  rewrite format_stdin_filename. cbn zeta.
  eexists _, _. split; [reflexivity |]. split; [reflexivity |].
  set (base := path_join out_dir (SOURCES_DIR_NAME cfg)).
  assert (Hne : path_str (path_join base (pretty (now w) ++ "-stdin.txt"))
                <> path_str (path_join base (pretty t2 ++ "-stdin.txt"))).
  { unfold path_join. rewrite !stdin_name_component. cbn [anchored parts].
    intros H. apply path_str_last_inj, str_append_inj_r in H.
    apply (inj pretty) in H. congruence. }
  split; [exact Hne |]. cbn [files]. split.
  - rewrite lookup_insert_ne by congruence. apply lookup_insert_eq.
  - apply lookup_insert_eq.
Qed.

(** * Further properties of the URL self-check *)

Lemma assert_url_strs_complete (findall_len : string -> nat)
    (table : list (string * nat)) :
  (forall url_str num_urls,
     In (url_str, num_urls) table -> findall_len url_str = num_urls) ->
  assert_url_strs findall_len table = Return tt.
Proof.
  induction table as [| [s n] rest IH]; intros Hall; [reflexivity |].
  cbn [assert_url_strs]. rewrite (Hall s n) by (left; reflexivity).
  rewrite Nat.eqb_refl. apply IH. intros u k Hin. apply Hall. right. exact Hin.
Qed.

(** X20. Importing the module succeeds exactly when the matcher agrees with
    every line of the table; the check can only pass or raise an assertion
    error, it never ends the process by itself. *)
Theorem module_self_check_iff (findall_len : string -> nat) :
  (module_self_check findall_len = Return tt
   <-> forall url_str num_urls,
         In (url_str, num_urls) _test_url_strs -> findall_len url_str = num_urls)
  /\ (forall code, module_self_check findall_len <> SystemExit code).
Proof.
  unfold module_self_check. split; [split |].
  - apply assert_url_strs_all.
  - apply assert_url_strs_complete.
  - generalize _test_url_strs. intros table.
    induction table as [| [s n] rest IH]; intros code; [discriminate |].
    cbn [assert_url_strs]. destruct (findall_len s =? n)%nat; [apply IH | discriminate].
Qed.

(** X21. A failing self-check stops at the first line of the table the
    matcher gets wrong and names it: the lines before it agree, and the error
    message carries that line's text and expected count. *)
Theorem assert_url_strs_first_mismatch (findall_len : string -> nat)
    (table : list (string * nat)) e :
  assert_url_strs findall_len table = Raise e ->
  exists before url_str num_urls after,
    table = before ++ (url_str, num_urls) :: after
    /\ (forall s n, In (s, n) before -> findall_len s = n)
    /\ findall_len url_str <> num_urls
    /\ e = AssertionError
             (url_str ++ " does not contain " ++ pretty num_urls ++ " urls").
Proof.
  induction table as [| [s n] rest IH]; intros Hfail; [discriminate Hfail |].
  cbn [assert_url_strs] in Hfail.
  destruct (Nat.eqb_spec (findall_len s) n) as [Heq | Hne].
  - destruct (IH Hfail) as (before & u & k & after & -> & Hbefore & Hbad & ->).
    exists ((s, n) :: before), u, k, after. split; [reflexivity |].
    split; [| split; [exact Hbad | reflexivity]].
    intros s0 n0 [H | H]; [injection H as <- <-; exact Heq | apply Hbefore, H].
  - injection Hfail as <-.
    exists [], s, n, rest. split; [reflexivity |].
    split; [intros s0 n0 [] | split; [exact Hne | reflexivity]].
Qed.

(** * Instances of the further properties *)

Lemma save_text_as_source_writes_text_witness :
  files (snd (save_text_as_source sample_cfg "https://a.example.com"
                stdin_filename (path_of_str "/mnt/archive") sample_world))
    !! "/mnt/archive/sources/1700000000-stdin.txt"
  = Some "https://a.example.com"
  /\ (forall p, p <> "/mnt/archive/sources/1700000000-stdin.txt" ->
        files (snd (save_text_as_source sample_cfg "https://a.example.com"
                      stdin_filename (path_of_str "/mnt/archive") sample_world))
          !! p
        = files sample_world !! p)
  /\ trace (snd (save_text_as_source sample_cfg "https://a.example.com"
                   stdin_filename (path_of_str "/mnt/archive") sample_world))
     = trace sample_world ++
         [ AtomicWrite "/mnt/archive/sources/1700000000-stdin.txt"
                       "https://a.example.com";
           LogSourceSaved "/mnt/archive/sources/1700000000-stdin.txt" ].
Proof.
  apply (save_text_as_source_writes_text sample_cfg "https://a.example.com"
           stdin_filename (path_of_str "/mnt/archive") sample_world).
  vm_compute. reflexivity.
Defined.




Lemma save_file_as_source_saves_decoded_witness :
  exists source_path w',
    save_file_as_source sample_cfg sample_utl "https://example.com/feed.xml" 60
      basename_filename (path_of_str "/data") sample_world
    = (Return source_path, w')
    /\ files w' !! source_path = Some "<rss>https://a.example.com</rss>"
    /\ trace w' = trace sample_world ++
         [ Print ("    > Downloading " ++ "https://example.com/feed.xml"
                    ++ " contents")%string;
           Download "https://example.com/feed.xml" 60;
           AtomicWrite source_path "<rss>https://a.example.com</rss>";
           LogSourceSaved source_path ].
Proof.
  apply (save_file_as_source_saves_decoded sample_cfg sample_utl
           "https://example.com/feed.xml" 60 basename_filename
           (path_of_str "/data") sample_world "1700000000-feed.xml.txt"
           "<rss>https://a.example.com</rss>").
  - vm_compute. reflexivity.
  - exists "https". split; [simpl; auto | exists "example.com/feed.xml"; reflexivity].
  - reflexivity.
  - reflexivity.
Defined.



Lemma save_text_as_source_same_second_witness :
  exists w2,
    save_text_as_source sample_cfg "https://b.example.com" stdin_filename
      (path_of_str "/mnt/archive")
      (snd (save_text_as_source sample_cfg "https://a.example.com"
              stdin_filename (path_of_str "/mnt/archive") sample_world))
    = (Return "/mnt/archive/sources/1700000000-stdin.txt", w2)
    /\ files w2 !! "/mnt/archive/sources/1700000000-stdin.txt"
       = Some "https://b.example.com"
    /\ files w2
       = <["/mnt/archive/sources/1700000000-stdin.txt" := "https://b.example.com"]>
           (files sample_world).
Proof.
  apply (save_text_as_source_same_second sample_cfg "https://a.example.com"
           "https://b.example.com" stdin_filename (path_of_str "/mnt/archive")
           sample_world "/mnt/archive/sources/1700000000-stdin.txt"
           (snd (save_text_as_source sample_cfg "https://a.example.com"
                   stdin_filename (path_of_str "/mnt/archive") sample_world))).
  vm_compute. reflexivity.
Defined.

Lemma save_text_as_source_distinct_seconds_witness :
  exists sp1 w1 sp2 w2,
    save_text_as_source sample_cfg "https://a.example.com" stdin_filename
      (path_of_str "/mnt/archive") sample_world
    = (Return sp1, w1)
    /\ save_text_as_source sample_cfg "https://b.example.com" stdin_filename
         (path_of_str "/mnt/archive") (at_time 1700000001 w1)
       = (Return sp2, w2)
    /\ sp1 <> sp2
    /\ files w2 !! sp1 = Some "https://a.example.com"
    /\ files w2 !! sp2 = Some "https://b.example.com".
Proof.
  apply (save_text_as_source_distinct_seconds sample_cfg "https://a.example.com"
           "https://b.example.com" (path_of_str "/mnt/archive") sample_world
           1700000001).
  vm_compute. discriminate.
Defined.

Lemma assert_url_strs_first_mismatch_witness :
  exists before url_str num_urls after,
    _test_url_strs = before ++ (url_str, num_urls) :: after
    /\ (forall s n, In (s, n) before -> blind_matcher s = n)
    /\ blind_matcher url_str <> num_urls
    /\ AssertionError "https://example does not contain 1 urls"
       = AssertionError
           (url_str ++ " does not contain " ++ pretty num_urls ++ " urls").
Proof.
  apply (assert_url_strs_first_mismatch blind_matcher _test_url_strs
           (AssertionError "https://example does not contain 1 urls")).
  vm_compute. reflexivity.
Defined.
